(** * Whisper transcription service: [server/whisper-service/transcribe.py]

    A shallow embedding of the command-line wrapper and the proofs of the
    properties its specification states.

    Modelling conventions.
    - A Python [str] is the list of its code points ([N]).
    - The values that flow through the script ([None], [bool], [int],
      [str], [list], [dict]) form the type [pyval]; a [dict] whose order
      is observable (it is serialised) is an association list in insertion
      order, a [dict] that is only looked up is a [gmap].
    - The [whisper] library, the file system and the process environment
      are collaborators outside the script: they are the fields of the
      class [Outside], over an arbitrary state [W] of the outside world.
    - Effects are threaded through a state-and-exception monad [M]:
      the module-level [MODEL], [sys.argv], [os.environ], the two output
      streams, a log of the calls made to the collaborators, and [W].
      [raise] is the outcome [Raise], [sys.exit] is the outcome [SysExit]
      (a [SystemExit], which [except Exception] does not intercept).
    - A fault of a collaborator is an instance of a subclass of
      [Exception], given by its class name and by [str(e)].  Writes to the
      two streams succeed.
    - [json.dumps] raises on an [int] longer than the interpreter's limit
      on integer-to-string conversion and on containers nested deeper than
      the interpreter lets the encoder recurse; both limits are fields of
      [Outside].  When it returns, its text is [Json.dumps]. *)

From Stdlib Require Import ZArith NArith List String Ascii Lia DecimalString.
From stdpp Require Import base option list numbers countable gmap.

Local Open Scope N_scope.
Local Open Scope list_scope.
Local Set Warnings "-register-all".

(** ** Python strings *)

Module Str.

(** A [str]: the sequence of its code points. *)
Definition pystr := list N.

(** A literal, character by character. *)
Definition str (s : String.string) : pystr :=
  List.map N_of_ascii (list_ascii_of_string s).
Arguments str : simpl never.

(** [sep.join(parts)] *)
Fixpoint join (sep : pystr) (parts : list pystr) : pystr :=
  match parts with
  | [] => []
  | [p] => p
  | p :: ps => p ++ sep ++ join sep ps
  end.

(** [str.isspace] on one character: the code points that CPython's
    [_PyUnicode_IsWhitespace] accepts. *)
Definition isspace (c : N) : bool :=
  ((0x09 <=? c) && (c <=? 0x0D)) || ((0x1C <=? c) && (c <=? 0x20))
  || (c =? 0x85) || (c =? 0xA0) || (c =? 0x1680)
  || ((0x2000 <=? c) && (c <=? 0x200A))
  || (c =? 0x2028) || (c =? 0x2029) || (c =? 0x202F) || (c =? 0x205F)
  || (c =? 0x3000).

(** [s.lstrip()] *)
Fixpoint lstrip (s : pystr) : pystr :=
  match s with
  | [] => []
  | c :: s' => if isspace c then lstrip s' else s
  end.

(** [s.rstrip()] *)
Definition rstrip (s : pystr) : pystr := rev (lstrip (rev s)).

(** [s.strip()] *)
Definition strip (s : pystr) : pystr := rstrip (lstrip s).

(** All characters of [s] are white space. *)
Definition blank (s : pystr) : Prop := Forall (λ c, isspace c = true) s.

(** [s] neither starts nor ends with white space. *)
Definition trimmed (s : pystr) : Prop :=
  (∀ c, head s = Some c → isspace c = false) ∧
  (∀ c, last s = Some c → isspace c = false).

(** [repr] of an [int]: its decimal digits, [-] in front when negative. *)
Fixpoint digits (u : Decimal.uint) : pystr :=
  match u with
  | Decimal.Nil => []
  | Decimal.D0 u => 48 :: digits u
  | Decimal.D1 u => 49 :: digits u
  | Decimal.D2 u => 50 :: digits u
  | Decimal.D3 u => 51 :: digits u
  | Decimal.D4 u => 52 :: digits u
  | Decimal.D5 u => 53 :: digits u
  | Decimal.D6 u => 54 :: digits u
  | Decimal.D7 u => 55 :: digits u
  | Decimal.D8 u => 56 :: digits u
  | Decimal.D9 u => 57 :: digits u
  end.

Definition repr_int (z : Z) : pystr :=
  match Z.to_int z with
  | Decimal.Pos u => digits u
  | Decimal.Neg u => 45 :: digits u
  end.

End Str.
Export Str.

(** ** Python values *)

Inductive pyval : Type :=
| PNone
| PBool (b : bool)
| PInt (z : Z)
| PStr (s : pystr)
| PList (l : list pyval)
| PDict (d : list (pystr * pyval)).

(** A [dict] built by the script, in insertion order. *)
Definition pydict := list (pystr * pyval).

(** [d[k]] and [d.get(k)] on such a [dict]. *)
Fixpoint dict_lookup (k : pystr) (d : pydict) : option pyval :=
  match d with
  | [] => None
  | (k', v) :: d' => if decide (k = k') then Some v else dict_lookup k d'
  end.

(** [type(v).__name__] *)
Definition type_name (v : pyval) : pystr :=
  match v with
  | PNone => str "NoneType"
  | PBool _ => str "bool"
  | PInt _ => str "int"
  | PStr _ => str "str"
  | PList _ => str "list"
  | PDict _ => str "dict"
  end.

(** [bool(v)] *)
Definition truthy (v : pyval) : bool :=
  match v with
  | PNone => false
  | PBool b => b
  | PInt z => negb (z =? 0)%Z
  | PStr s => negb (Nat.eqb (length s) 0)
  | PList l => negb (Nat.eqb (length l) 0)
  | PDict d => negb (Nat.eqb (length d) 0)
  end.

(** ** [json.dumps] with its default options *)

Module Json.

(** One lower-case hexadecimal digit. *)
Definition hex_digit (d : N) : N := if d <? 10 then 48 + d else 87 + d.

(** [format(n, "04x")] for [n < 0x10000]. *)
Definition hex4 (n : N) : pystr :=
  [hex_digit (N.shiftr n 12 mod 16); hex_digit (N.shiftr n 8 mod 16);
   hex_digit (N.shiftr n 4 mod 16); hex_digit (n mod 16)].

(** The escape [\uXXXX]. *)
Definition u_escape (n : N) : pystr := 92 :: 117 :: hex4 n.

(** The replacement of one character by [json.encoder]'s
    [encode_basestring_ascii]: printable ASCII stands for itself, the
    quote, the backslash and the short control escapes come from
    [ESCAPE_DCT], everything else is [\uXXXX], as a surrogate pair above
    the basic plane. *)
Definition escape_char (c : N) : pystr :=
  if c =? 34 then [92; 34]
  else if c =? 92 then [92; 92]
  else if (32 <=? c) && (c <=? 126) then [c]
  else if c =? 8 then [92; 98]
  else if c =? 12 then [92; 102]
  else if c =? 10 then [92; 110]
  else if c =? 13 then [92; 114]
  else if c =? 9 then [92; 116]
  else if c <? 0x10000 then u_escape c
  else
    let n := c - 0x10000 in
    let s1 := N.lor 0xd800 (N.land (N.shiftr n 10) 0x3ff) in
    let s2 := N.lor 0xdc00 (N.land n 0x3ff) in
    u_escape s1 ++ u_escape s2.

Definition encode_basestring_ascii (s : pystr) : pystr :=
  34 :: concat (List.map escape_char s) ++ [34].

(** The text [json.dumps(v)] returns, when it returns: separators [", "]
    and [": "], no indentation.  [JsonCheck.refusal] tells when it raises
    instead. *)
Fixpoint dumps (v : pyval) : pystr :=
  match v with
  | PNone => str "null"
  | PBool true => str "true"
  | PBool false => str "false"
  | PInt z => repr_int z
  | PStr s => encode_basestring_ascii s
  | PList l => str "[" ++ join (str ", ") (List.map dumps l) ++ str "]"
  | PDict d =>
      str "{" ++
      join (str ", ")
        (List.map (fun kv => match kv with
                             | (k, x) => encode_basestring_ascii k ++ str ": " ++ dumps x
                             end) d)
      ++ str "}"
  end.

(** The printable ASCII characters. *)
Definition printable (c : N) : Prop := 32 ≤ c ∧ c ≤ 126.

#[global] Instance printable_dec c : Decision (printable c).
Proof. unfold printable. apply _. Defined.

(** A string of printable characters other than the quote and the
    backslash. *)
Definition plain (s : pystr) : Prop :=
  Forall (λ c, printable c ∧ c ≠ 34 ∧ c ≠ 92) s.

(** [s] between double quotes. *)
Definition quoted (s : pystr) : pystr := 34 :: s ++ [34].

End Json.

(** ** Exceptions *)

(** An instance [e] of a subclass of [Exception]: the name of its class and
    [str(e)]. *)
Record exception := mkException { exc_class : pystr; exc_str : pystr }.

(** [KeyError(k)] for a key [k] made of plain letters: [str(e)] is
    [repr(k)], the key between single quotes. *)
Definition KeyError (k : pystr) : exception :=
  mkException (str "KeyError") (str "'" ++ k ++ str "'").

(** The [AttributeError] of [v.name] on a value without that attribute. *)
Definition AttributeError (v : pyval) (name : pystr) : exception :=
  mkException (str "AttributeError")
    (str "'" ++ type_name v ++ str "' object has no attribute '" ++ name ++ str "'").

(** The [TypeError] of [len(v)] on a value without a length. *)
Definition TypeError_len (v : pyval) : exception :=
  mkException (str "TypeError")
    (str "object of type '" ++ type_name v ++ str "' has no len()").

Definition IndexError : exception :=
  mkException (str "IndexError") (str "list index out of range").

(** ** When [json.dumps] raises *)

Module JsonCheck.

(** [int.__repr__] on more digits than [sys.get_int_max_str_digits()]
    allows; a limit of 0 is no limit. *)
Definition ValueError_digits (limit : N) : exception :=
  mkException (str "ValueError")
    (str "Exceeds the limit (" ++ repr_int (Z.of_N limit) ++
     str " digits) for integer string conversion; " ++
     str "use sys.set_int_max_str_digits() to increase the limit").

(** The encoder entering one container too many. *)
Definition RecursionError : exception :=
  mkException (str "RecursionError")
    (str "maximum recursion depth exceeded while encoding a JSON object").

(** The digits of [z], its sign left out, are more than the limit. *)
Definition too_long (limit : N) (z : Z) : bool :=
  (0 <? limit) && (limit <? N.of_nat (length (repr_int (Z.abs z)))).

(** The exception [json.dumps(v)] raises, if it does: the encoder walks
    [v] from left to right, enters each [list] and [dict] through a
    recursive call, of which [depth] are left, and writes each [int]
    through [int.__repr__].  The first refusal on the way is the one
    raised. *)
Fixpoint refusal (limit : N) (depth : nat) (v : pyval) {struct v} :
    option exception :=
  match v with
  | PInt z => if too_long limit z then Some (ValueError_digits limit) else None
  | PList l =>
      match depth with
      | O => Some RecursionError
      | S d =>
          (fix items (l : list pyval) : option exception :=
             match l with
             | [] => None
             | x :: l' =>
                 match refusal limit d x with
                 | Some e => Some e
                 | None => items l'
                 end
             end) l
      end
  | PDict kv =>
      match depth with
      | O => Some RecursionError
      | S d =>
          (fix items (kv : list (pystr * pyval)) : option exception :=
             match kv with
             | [] => None
             | (_, x) :: kv' =>
                 match refusal limit d x with
                 | Some e => Some e
                 | None => items kv'
                 end
             end) kv
      end
  | _ => None
  end.

End JsonCheck.

(** ** The collaborators *)

(** What the script calls and does not define: [whisper.load_model],
    the [transcribe] method of the handle it returns, and
    [os.path.exists].  [W] is the state of the outside world (files, the
    model cache, the library's own state), [Model] the type of the model
    handles.  A call returns a value or raises, and may change [W].

    The interpreter brings two limits that [json.dumps] runs into:
    [sys_int_max_str_digits] is [sys.get_int_max_str_digits()] (4300 by
    default, 0 for none), and [json_max_depth] is the number of containers,
    one inside the other, that the encoder can enter before the recursion
    limit stops it; the outermost one it can always enter. *)
Class Outside (W Model : Type) := {
  ext_load_model : pystr → W → (exception + Model) * W;
  ext_transcribe : Model → pystr → pydict → W → (exception + gmap pystr pyval) * W;
  ext_exists : pystr → W → bool;
  sys_int_max_str_digits : N;
  json_max_depth : positive
}.

(** The calls made to the collaborators, as the log records them. *)
Inductive call (Model : Type) : Type :=
| CallGetenv (key default : pystr)
| CallLoadModel (name : pystr)
| CallTranscribe (m : Model) (audio : pystr) (kwargs : pydict).
Arguments CallGetenv {Model} key default.
Arguments CallLoadModel {Model} name.
Arguments CallTranscribe {Model} m audio kwargs.

(** ** The state of the process and the monad of the script *)

Record state (W Model : Type) := mkState {
  MODEL : option Model;            (* the module-level MODEL; None is None *)
  sys_argv : list pystr;
  os_environ : gmap pystr pystr;
  sys_stdout : pystr;              (* the text written so far *)
  sys_stderr : pystr;
  calls : list (call Model);       (* oldest first *)
  world : W
}.
Arguments mkState {W Model}.
Arguments MODEL {W Model}.
Arguments sys_argv {W Model}.
Arguments os_environ {W Model}.
Arguments sys_stdout {W Model}.
Arguments sys_stderr {W Model}.
Arguments calls {W Model}.
Arguments world {W Model}.

(** How a piece of the script ends: it returns, it raises an [Exception],
    or it raises the [SystemExit] of [sys.exit]. *)
Inductive outcome (A : Type) : Type :=
| Ok (a : A)
| Raise (e : exception)
| SysExit (code : Z).
Arguments Ok {A} a.
Arguments Raise {A} e.
Arguments SysExit {A} code.

Definition M (W Model A : Type) : Type := state W Model → outcome A * state W Model.

#[global] Instance M_ret {W Model} : MRet (M W Model) :=
  λ A a st, (Ok a, st).

#[global] Instance M_bind {W Model} : MBind (M W Model) :=
  λ A B f m st,
    match m st with
    | (Ok a, st') => f a st'
    | (Raise e, st') => (Raise e, st')
    | (SysExit c, st') => (SysExit c, st')
    end.

(** [try: body / except Exception as e: handler e].  A [SystemExit] is not
    an [Exception] and passes through. *)
Definition try_except {W Model A} (body : M W Model A)
    (handler : exception → M W Model A) : M W Model A :=
  λ st,
    match body st with
    | (Raise e, st') => handler e st'
    | r => r
    end.

Definition raise {W Model A} (e : exception) : M W Model A :=
  λ st, (Raise e, st).

(** [sys.exit(code)] *)
Definition sys_exit {W Model A} (code : Z) : M W Model A :=
  λ st, (SysExit code, st).

(** ** The script *)

Section Script.
Context {W Model : Type} `{!Outside W Model}.

Local Abbreviation state := (state W Model).
Local Abbreviation M := (M W Model).

Definition with_MODEL (m : option Model) (st : state) : state :=
  mkState m (sys_argv st) (os_environ st) (sys_stdout st) (sys_stderr st)
    (calls st) (world st).

Definition with_stdout (out : pystr) (st : state) : state :=
  mkState (MODEL st) (sys_argv st) (os_environ st) out (sys_stderr st)
    (calls st) (world st).

Definition with_stderr (err : pystr) (st : state) : state :=
  mkState (MODEL st) (sys_argv st) (os_environ st) (sys_stdout st) err
    (calls st) (world st).

(** One more call in the log, and the world as the call left it. *)
Definition called (c : call Model) (w : W) (st : state) : state :=
  mkState (MODEL st) (sys_argv st) (os_environ st) (sys_stdout st)
    (sys_stderr st) (calls st ++ [c]) w.

(** *** The primitives the script uses *)

(** Reading and assigning the global [MODEL]. *)
Definition get_MODEL : M (option Model) := λ st, (Ok (MODEL st), st).
Definition set_MODEL (m : option Model) : M unit := λ st, (Ok tt, with_MODEL m st).

Definition get_argv : M (list pystr) := λ st, (Ok (sys_argv st), st).

(** [os.getenv(key, default)] *)
Definition os_getenv (key dflt : pystr) : M pystr :=
  λ st, (Ok (default dflt (os_environ st !! key)),
         called (CallGetenv key dflt) (world st) st).

(** [print(s)]: the text and a newline, on standard output. *)
Definition print (s : pystr) : M unit :=
  λ st, (Ok tt, with_stdout (sys_stdout st ++ s ++ [10]) st).

(** [print(s, file=sys.stderr)] *)
Definition print_stderr (s : pystr) : M unit :=
  λ st, (Ok tt, with_stderr (sys_stderr st ++ s ++ [10]) st).

(** [whisper.load_model(name)] *)
Definition whisper_load_model (name : pystr) : M Model :=
  λ st,
    let (r, w) := ext_load_model name (world st) in
    (match r with inl e => Raise e | inr m => Ok m end,
     called (CallLoadModel name) w st).

(** [model.transcribe(audio, **kwargs)]; on [None] the attribute lookup
    fails before any call is made. *)
Definition model_transcribe (model : option Model) (audio : pystr)
    (kwargs : pydict) : M (gmap pystr pyval) :=
  match model with
  | None => raise (AttributeError PNone (str "transcribe"))
  | Some m =>
      λ st,
        let (r, w) := ext_transcribe m audio kwargs (world st) in
        (match r with inl e => Raise e | inr d => Ok d end,
         called (CallTranscribe m audio kwargs) w st)
  end.

(** [os.path.exists(p)] *)
Definition os_path_exists (p : pystr) : M bool :=
  λ st, (Ok (ext_exists p (world st)), st).

(** [json.dumps(v)]: the text, or the exception of the encoder. *)
Definition json_dumps (v : pyval) : M pystr :=
  match JsonCheck.refusal sys_int_max_str_digits (Pos.to_nat json_max_depth) v with
  | Some e => raise e
  | None => mret (Json.dumps v)
  end.

(** [d[k]] on the model's result. *)
Definition getitem (d : gmap pystr pyval) (k : pystr) : M pyval :=
  match d !! k with
  | Some v => mret v
  | None => raise (KeyError k)
  end.

(** [d[k]] on a [dict] of the script. *)
Definition dict_getitem (d : pydict) (k : pystr) : M pyval :=
  match dict_lookup k d with
  | Some v => mret v
  | None => raise (KeyError k)
  end.

(** [l[i]] *)
Definition list_getitem (l : list pystr) (i : nat) : M pystr :=
  match l !! i with
  | Some x => mret x
  | None => raise IndexError
  end.

(** [v.strip()] *)
Definition method_strip (v : pyval) : M pyval :=
  match v with
  | PStr s => mret (PStr (strip s))
  | _ => raise (AttributeError v (str "strip"))
  end.

(** [len(v)] *)
Definition py_len (v : pyval) : M pyval :=
  match v with
  | PStr s => mret (PInt (Z.of_nat (length s)))
  | PList l => mret (PInt (Z.of_nat (length l)))
  | PDict d => mret (PInt (Z.of_nat (length d)))
  | _ => raise (TypeError_len v)
  end.

(** *** [load_model] *)

Definition load_model : M (option Model) :=
  m ← get_MODEL;
  (if m is None then
     model_name ← os_getenv (str "WHISPER_MODEL") (str "tiny");
     print_stderr (str "Loading Whisper " ++ model_name ++ str " model...");;
     h ← whisper_load_model model_name;
     set_MODEL (Some h);;
     print_stderr (str "Model loaded successfully")
   else mret tt);;
  get_MODEL.

(** *** [transcribe_audio] *)

(** The keyword arguments of the call to [model.transcribe]. *)
Definition transcribe_kwargs : pydict :=
  [(str "language", PStr (str "en")); (str "fp16", PBool false);
   (str "verbose", PBool false)].

Definition transcribe_audio (audio_path : pystr) : M pydict :=
  try_except
    (model ← load_model;
     result ← model_transcribe model audio_path transcribe_kwargs;
     text0 ← getitem result (str "text");
     text ← method_strip text0;
     let language := default (PStr (str "en")) (result !! str "language") in
     segments ← py_len (default (PList []) (result !! str "segments"));
     mret [(str "success", PBool true); (str "text", text);
           (str "language", language); (str "segments", segments)])
    (λ e, mret [(str "success", PBool false); (str "error", PStr (exc_str e))]).

(** *** [main] *)

Definition main : M unit :=
  argv ← get_argv;
  (if bool_decide (length argv < 2)%nat then
     line ← json_dumps (PDict [(str "success", PBool false);
                               (str "error", PStr (str "No audio file provided"))]);
     print line;;
     sys_exit 1
   else mret tt);;
  audio_path ← list_getitem argv 1;
  found ← os_path_exists audio_path;
  (if negb found then
     line ← json_dumps (PDict [(str "success", PBool false);
                               (str "error", PStr (str "Audio file not found: " ++ audio_path))]);
     print line;;
     sys_exit 1
   else mret tt);;
  result ← transcribe_audio audio_path;
  line ← json_dumps (PDict result);
  print line;;
  success ← dict_getitem result (str "success");
  sys_exit (if truthy success then 0 else 1).

(** *** The process *)

(** How the process ends: with an exit status, or on an exception nobody
    caught (a traceback, no status chosen by the script; nothing more is
    written on standard output). *)
Inductive termination : Type :=
| Exited (code : Z)
| Crashed (e : exception).

(** [if __name__ == '__main__': main()] *)
Definition run (st : state) : termination * state :=
  match main st with
  | (Ok _, st') => (Exited 0, st')
  | (SysExit c, st') => (Exited c, st')
  | (Raise e, st') => (Crashed e, st')
  end.

(** The process at its start: nothing loaded, nothing written. *)
Definition start (argv : list pystr) (environ : gmap pystr pystr) (w : W) : state :=
  mkState None argv environ [] [] [] w.

(** *** The vocabulary of the statements *)

(** The two variants of a transcription result. *)
Definition success_variant (text : pystr) (language : pyval) (segments : Z) : pydict :=
  [(str "success", PBool true); (str "text", PStr text);
   (str "language", language); (str "segments", PInt segments)].

Definition failure_variant (error : pystr) : pydict :=
  [(str "success", PBool false); (str "error", PStr error)].

(** [json.dumps(v)] returns. *)
Definition serialisable (v : pyval) : Prop :=
  JsonCheck.refusal sys_int_max_str_digits (Pos.to_nat json_max_depth) v = None.

(** The model variant a first call to [load_model] asks for. *)
Definition model_name (st : state) : pystr :=
  default (str "tiny") (os_environ st !! str "WHISPER_MODEL").

(** The calls a first call to [load_model] makes. *)
Definition load_calls (st : state) : list (call Model) :=
  [CallGetenv (str "WHISPER_MODEL") (str "tiny"); CallLoadModel (model_name st)].

(** The two progress lines of [load_model]. *)
Definition loading_line (st : state) : pystr :=
  str "Loading Whisper " ++ model_name st ++ str " model..." ++ [10].

Definition loaded_line : pystr := str "Model loaded successfully" ++ [10].

(** The state a first call to [load_model] leaves when the load returns
    the handle [h] and the world [w], and when it raises. *)
Definition loaded (h : Model) (w : W) (st : state) : state :=
  mkState (Some h) (sys_argv st) (os_environ st) (sys_stdout st)
    (sys_stderr st ++ loading_line st ++ loaded_line)
    (calls st ++ load_calls st) w.

Definition load_failed (w : W) (st : state) : state :=
  mkState None (sys_argv st) (os_environ st) (sys_stdout st)
    (sys_stderr st ++ loading_line st)
    (calls st ++ load_calls st) w.

(** The state after the call [m.transcribe(p, ...)] left the world [w]. *)
Definition transcribed (m : Model) (p : pystr) (w : W) (st : state) : state :=
  called (CallTranscribe m p transcribe_kwargs) w st.

(** The collaborator raises [e] under [transcribe_audio p]: in the model
    load, or in the transcription call once a handle is there; [st1] is
    the state at that point. *)
Definition capability_raises (p : pystr) (st : state) (e : exception)
    (st1 : state) : Prop :=
  (MODEL st = None ∧
   ∃ w, ext_load_model (model_name st) (world st) = (inl e, w) ∧
        st1 = load_failed w st) ∨
  (∃ m st0 w, load_model st = (Ok (Some m), st0) ∧
              ext_transcribe m p transcribe_kwargs (world st0) = (inl e, w) ∧
              st1 = transcribed m p w st0).

(** The model call succeeds under [transcribe_audio p]: a handle [m] is
    there (cached, or just loaded) and [m.transcribe] returns [d]. *)
Definition capability_returns (p : pystr) (st : state)
    (d : gmap pystr pyval) (st1 : state) : Prop :=
  ∃ m st0 w, load_model st = (Ok (Some m), st0) ∧
             ext_transcribe m p transcribe_kwargs (world st0) = (inr d, w) ∧
             st1 = transcribed m p w st0.

End Script.

(** ** A scripted outside world, for concrete runs *)

Module Demo.

(** The outside world as a script: the answers that the next calls to
    [whisper.load_model] and to [model.transcribe] will give, and the
    files that exist.  Handles are numbers. *)
Record script := mkWorld {
  loads : list (exception + N);
  answers : list (exception + gmap pystr pyval);
  files : list pystr
}.

Definition RuntimeError (msg : pystr) : exception :=
  mkException (str "RuntimeError") msg.

#[global] Instance outside : Outside script N := {|
  ext_load_model name w :=
    match loads w with
    | r :: rs => (r, mkWorld rs (answers w) (files w))
    | [] => (inl (RuntimeError (str "Model " ++ name ++ str " not found")), w)
    end;
  ext_transcribe m audio kwargs w :=
    match answers w with
    | r :: rs => (r, mkWorld (loads w) rs (files w))
    | [] => (inl (RuntimeError (str "Failed to load audio")), w)
    end;
  ext_exists p w := bool_decide (p ∈ files w);
  sys_int_max_str_digits := 4300;
  json_max_depth := 1000
|}.

Definition prog : pystr := str "transcribe.py".
Definition wav : pystr := str "call.wav".

(** What whisper returns on a short recording. *)
Definition hello : gmap pystr pyval :=
  <[str "text" := PStr (str " Hello world. ")]>
  (<[str "segments" := PList [PDict [(str "id", PInt 0); (str "text", PStr (str " Hello world."))]]]>
  (<[str "language" := PStr (str "en")]> ∅)).

(** An [assert] without a message: [str(e)] is empty. *)
Definition bare_assertion : exception := mkException (str "AssertionError") [].

(** [whisper.load_model] on a variant it does not know. *)
Definition unknown_model : exception :=
  RuntimeError (str "Model large-v9 not found").

(** Processes at their start, the command line being [transcribe.py] alone
    or [transcribe.py call.wav]. *)
Definition no_argument : state script N :=
  start [prog] ∅ (mkWorld [] [] []).

Definition missing_file : state script N :=
  start [prog; wav] ∅ (mkWorld [inr 7] [inr hello] []).

(** The recording exists, the model loads and transcribes it. *)
Definition good_run : state script N :=
  start [prog; wav] ∅ (mkWorld [inr 7] [inr hello] [wav]).

(** The model loads; the transcription stops on a bare [assert]. *)
Definition silent_fault : state script N :=
  start [prog; wav] ∅ (mkWorld [inr 7] [inl bare_assertion] [wav]).

(** [WHISPER_MODEL] names an unknown variant: the first load fails, a
    second one would succeed. *)
Definition bad_variant : state script N :=
  start [prog; wav] (<[str "WHISPER_MODEL" := str "large-v9"]> ∅)
    (mkWorld [inl unknown_model; inr 7] [inr hello] [wav]).

(** The model's result without its [text], and with its [text] only. *)
Definition no_text : state script N :=
  start [prog; wav] ∅
    (mkWorld [inr 7] [inr (delete (str "text") hello)] [wav]).

Definition text_only : state script N :=
  start [prog; wav] ∅
    (mkWorld [inr 7] [inr (<[str "text" := PStr (str " Hello world. ")]> ∅)] [wav]).

End Demo.

(** ** Further vocabulary *)

(** The process with another command line. *)
Definition with_argv {W Model : Type} (argv : list pystr)
    (st : state W Model) : state W Model :=
  mkState (MODEL st) argv (os_environ st) (sys_stdout st) (sys_stderr st)
    (calls st) (world st).

(** A [str] as the interpreter builds them from the command line, from
    decoded text or from a message: code points below [0x110000], none of
    them a high surrogate ([0xD800] to [0xDBFF]). *)
Definition wellformed (s : pystr) : Prop :=
  Forall (λ c, c < 0x110000 ∧ (c < 0xD800 ∨ 0xDBFF < c)) s.

(** Reading back a string that [Json.encode_basestring_ascii] wrote: the
    inverse used to show that the text on standard output determines the
    string. *)
Module JsonRead.

(** The value of a lower-case hexadecimal digit. *)
Definition hex_value (x : N) : N := if x <? 58 then x - 48 else x - 87.

Definition unhex4 (a b c d : N) : N :=
  ((hex_value a * 16 + hex_value b) * 16 + hex_value c) * 16 + hex_value d.

(** The character a short escape stands for. *)
Definition unescape (e : N) : N :=
  if e =? 98 then 8
  else if e =? 102 then 12
  else if e =? 110 then 10
  else if e =? 114 then 13
  else if e =? 116 then 9
  else e.

Definition push (c : N) (r : option (pystr * pystr)) : option (pystr * pystr) :=
  match r with
  | Some (s, rest) => Some (c :: s, rest)
  | None => None
  end.

(** Reads the body of a string up to its closing quote; returns the string
    and the text after the quote. *)
Fixpoint read_body (s : pystr) : option (pystr * pystr) :=
  match s with
  | [] => None
  | c :: s1 =>
      if c =? 34 then Some ([], s1)
      else if c =? 92 then
        match s1 with
        | [] => None
        | e :: s2 =>
            if e =? 117 then
              match s2 with
              | a :: b :: c' :: d :: s3 =>
                  let n := unhex4 a b c' d in
                  if (0xD800 <=? n) && (n <=? 0xDBFF) then
                    match s3 with
                    | _ :: _ :: a2 :: b2 :: c2 :: d2 :: s4 =>
                        push (0x10000 + (n - 0xD800) * 1024 +
                              (unhex4 a2 b2 c2 d2 - 0xDC00))
                          (read_body s4)
                    | _ => None
                    end
                  else push n (read_body s3)
              | _ => None
              end
            else push (unescape e) (read_body s2)
        end
      else push c (read_body s1)
  end.

(** Reads a string from its opening quote on. *)
Definition read_string (s : pystr) : option (pystr * pystr) :=
  match s with
  | 34 :: body => read_body body
  | _ => None
  end.

End JsonRead.

(** More scripted processes, for the edge cases. *)
Module Cases.
Import Demo.

(** The model answers with [None] for its text. *)
Definition text_is_none : state script N :=
  start [prog; wav] ∅
    (mkWorld [inr 7] [inr (<[str "text" := PNone]> hello)] [wav]).

(** The model answers with [None] for its segments. *)
Definition segments_is_none : state script N :=
  start [prog; wav] ∅
    (mkWorld [inr 7] [inr (<[str "segments" := PNone]> hello)] [wav]).

(** A silent recording: the transcript is white space. *)
Definition silence : gmap pystr pyval :=
  <[str "text" := PStr [32; 10]]> (<[str "segments" := PList []]> ∅).

Definition silent_recording : state script N :=
  start [prog; wav] ∅ (mkWorld [inr 7] [inr silence] [wav]).

(** The model reports, as its language, an integer of 4301 digits. *)
Definition long_language : state script N :=
  start [prog; wav] ∅
    (mkWorld [inr 7] [inr (<[str "language" := PInt (10 ^ 4300)]> hello)] [wav]).


(** A process that already holds the handle 7. *)
Definition warm : state script N :=
  mkState (Some 7) [prog; wav] ∅ [] [] [] (mkWorld [] [inr hello] [wav]).

End Cases.

(** * Properties *)

(** ** What [strip] removes *)

Section StripFacts.

Lemma lstrip_split (s : pystr) : ∃ pre, s = pre ++ lstrip s ∧ blank pre.
Proof.
  induction s as [|c s [pre [Hs Hpre]]]; simpl.
  - exists []. split; [reflexivity | constructor].
  - destruct (isspace c) eqn:Hc.
    + exists (c :: pre). split.
      * simpl. f_equal. exact Hs.
      * constructor; assumption.
    + exists []. split; [reflexivity | constructor].
Qed.

Lemma lstrip_head (s : pystr) (c : N) :
  head (lstrip s) = Some c → isspace c = false.
Proof.
  induction s as [|a s IH]; simpl; [discriminate|].
  destruct (isspace a) eqn:Ha; [exact IH|].
  simpl. intros [= <-]. exact Ha.
Qed.

Lemma last_rev (s : pystr) : last (rev s) = head s.
Proof. destruct s as [|c s]; simpl; [reflexivity | apply last_snoc]. Qed.

Lemma head_rev (s : pystr) : head (rev s) = last s.
Proof. rewrite <- (rev_involutive s) at 2. symmetry. apply last_rev. Qed.

Lemma rstrip_split (s : pystr) : ∃ post, s = rstrip s ++ post ∧ blank post.
Proof.
  unfold rstrip. destruct (lstrip_split (rev s)) as [pre [Hs Hpre]].
  exists (rev pre). split.
  - rewrite <- rev_app_distr, <- Hs. symmetry. apply rev_involutive.
  - unfold blank in *. rewrite Forall_forall in *. intros c Hc.
    apply Hpre. apply list_elem_of_In. apply in_rev.
    apply list_elem_of_In. exact Hc.
Qed.

Lemma rstrip_last (s : pystr) (c : N) :
  last (rstrip s) = Some c → isspace c = false.
Proof. unfold rstrip. rewrite last_rev. apply lstrip_head. Qed.

Lemma head_app_prefix (a b : pystr) (c : N) :
  head a = Some c → head (a ++ b) = Some c.
Proof. destruct a; simpl; [discriminate | trivial]. Qed.

(** [strip] cuts a run of white space off each end, and nothing else. *)
Lemma strip_spec (s : pystr) :
  ∃ pre post, s = pre ++ strip s ++ post ∧ blank pre ∧ blank post ∧ trimmed (strip s).
Proof.
  destruct (lstrip_split s) as [pre [Hs Hpre]].
  destruct (rstrip_split (lstrip s)) as [post [Ht Hpost]].
  exists pre, post. unfold strip. repeat split; try assumption.
  - rewrite <- Ht. exact Hs.
  - intros c Hc. apply (lstrip_head s). rewrite Ht.
    apply head_app_prefix. exact Hc.
  - apply rstrip_last.
Qed.

End StripFacts.

(** ** [json.dumps] writes printable ASCII only *)

Section JsonFacts.
Import Json.

(** Closes [Forall printable s] for a literal [s]. *)
Ltac literal := apply (bool_decide_unpack _); vm_compute; exact I.

Lemma hex_digit_printable (d : N) : d < 16 → printable (hex_digit d).
Proof.
  intros Hd. unfold hex_digit, printable.
  destruct (N.ltb_spec d 10); lia.
Qed.

Lemma hex4_printable (n : N) : Forall printable (hex4 n).
Proof.
  unfold hex4.
  repeat constructor; apply hex_digit_printable; apply N.mod_lt; discriminate.
Qed.

Lemma u_escape_printable (n : N) : Forall printable (u_escape n).
Proof.
  unfold u_escape. constructor; [unfold printable; lia|].
  constructor; [unfold printable; lia|]. apply hex4_printable.
Qed.

Lemma escape_char_printable (c : N) : Forall printable (escape_char c).
Proof.
  unfold escape_char.
  destruct (c =? 34); [literal|].
  destruct (c =? 92); [literal|].
  destruct ((32 <=? c) && (c <=? 126)) eqn:Hrange.
  { apply andb_true_iff in Hrange as [Hlo Hhi]. apply N.leb_le in Hlo, Hhi.
    constructor; [split; assumption | constructor]. }
  destruct (c =? 8); [literal|].
  destruct (c =? 12); [literal|].
  destruct (c =? 10); [literal|].
  destruct (c =? 13); [literal|].
  destruct (c =? 9); [literal|].
  destruct (c <? 65536); [apply u_escape_printable|].
  apply Forall_app. split; apply u_escape_printable.
Qed.

Lemma encode_printable (s : pystr) : Forall printable (encode_basestring_ascii s).
Proof.
  unfold encode_basestring_ascii.
  constructor; [unfold printable; lia|].
  apply Forall_app. split.
  - induction s as [|c s IH]; simpl; [constructor|].
    apply Forall_app. split; [apply escape_char_printable | exact IH].
  - constructor; [unfold printable; lia | constructor].
Qed.

Lemma digits_printable (u : Decimal.uint) : Forall printable (digits u).
Proof.
  induction u; simpl; constructor; try assumption; unfold printable; lia.
Qed.

Lemma repr_int_printable (z : Z) : Forall printable (repr_int z).
Proof.
  unfold repr_int. destruct (Z.to_int z).
  - apply digits_printable.
  - constructor; [unfold printable; lia | apply digits_printable].
Qed.

Lemma join_printable (sep : pystr) (parts : list pystr) :
  Forall printable sep → Forall (Forall printable) parts →
  Forall printable (join sep parts).
Proof.
  intros Hsep. induction 1 as [|p ps Hp Hps IH]; simpl; [constructor|].
  destruct ps as [|q ps]; [exact Hp|].
  apply Forall_app. split; [exact Hp|].
  apply Forall_app. split; [exact Hsep | exact IH].
Qed.

(** Induction on values, through the lists a value contains. *)
Lemma pyval_nested_ind (P : pyval → Prop) :
  P PNone → (∀ b, P (PBool b)) → (∀ z, P (PInt z)) → (∀ s, P (PStr s)) →
  (∀ l, Forall P l → P (PList l)) →
  (∀ d, Forall (λ kv, P (snd kv)) d → P (PDict d)) →
  ∀ v, P v.
Proof.
  intros HN HB HI HS HL HD.
  fix IH 1. intros [| b | z | s | l | d].
  - exact HN.
  - apply HB.
  - apply HI.
  - apply HS.
  - apply HL. induction l as [|x l IHl]; constructor; [apply IH | exact IHl].
  - apply HD. induction d as [|[k x] d IHd]; constructor; [apply IH | exact IHd].
Qed.

Lemma dumps_printable (v : pyval) : Forall printable (dumps v).
Proof.
  induction v as [| [|] | z | s | l IH | d IH] using pyval_nested_ind; cbn [dumps].
  - literal.
  - literal.
  - literal.
  - apply repr_int_printable.
  - apply encode_printable.
  - apply Forall_app. split; [literal|].
    apply Forall_app. split; [|literal].
    apply join_printable; [literal|].
    induction IH; cbn [List.map]; constructor; assumption.
  - apply Forall_app. split; [literal|].
    apply Forall_app. split; [|literal].
    apply join_printable; [literal|].
    induction IH as [|[k x] d Hx Hd IHd]; cbn [List.map]; constructor; [|exact IHd].
    apply Forall_app. split; [apply encode_printable|].
    apply Forall_app. split; [literal | exact Hx].
Qed.


Lemma encode_plain (s : pystr) :
  plain s → encode_basestring_ascii s = quoted s.
Proof.
  intros Hs. unfold encode_basestring_ascii, quoted. do 2 f_equal.
  induction Hs as [|c s [[Hlo Hhi] [Hq Hb]] Hs IH]; simpl; [reflexivity|].
  rewrite IH. unfold escape_char.
  destruct (N.eqb_spec c 34); [contradiction|].
  destruct (N.eqb_spec c 92); [contradiction|].
  destruct (N.leb_spec 32 c); [|lia].
  destruct (N.leb_spec c 126); [|lia].
  reflexivity.
Qed.

End JsonFacts.

(** ** [load_model] *)

Section LoadModelFacts.
Context {W Model : Type} `{!Outside W Model}.
Implicit Types (st : state W Model) (h : Model) (e : exception).

(** With a handle in [MODEL], [load_model] returns it and touches nothing. *)
Lemma load_model_cached st h :
  MODEL st = Some h → load_model st = (Ok (Some h), st).
Proof.
  intros HM. unfold load_model, mbind, M_bind, get_MODEL. rewrite HM.
  simpl. rewrite HM. reflexivity.
Qed.

(** With [MODEL] unset, [load_model] asks the environment for the variant,
    announces the load and calls [whisper.load_model]; the handle is stored
    only when that call returns. *)
Lemma load_model_first st :
  MODEL st = None →
  load_model st =
    match ext_load_model (model_name st) (world st) with
    | (inr h, w) => (Ok (Some h), loaded h w st)
    | (inl e, w) => (Raise e, load_failed w st)
    end.
Proof.
  intros HM.
  unfold load_model, mbind, M_bind, get_MODEL. rewrite HM.
  unfold os_getenv, print_stderr, whisper_load_model, set_MODEL.
  cbn -[app str]. fold (model_name st).
  destruct (ext_load_model (model_name st) (world st)) as [[e|h] w];
    cbn -[app str].
  - unfold load_failed, called, with_stderr, loading_line, load_calls.
    cbn -[app str]. rewrite <- !app_assoc, ?HM. reflexivity.
  - unfold loaded, called, with_stderr, with_MODEL, loading_line, loaded_line,
      load_calls.
    cbn -[app str]. rewrite <- !app_assoc, ?HM. reflexivity.
Qed.

(** [load_model] never leaves through [sys.exit], and what it returns is
    the handle now in [MODEL]. *)
Lemma load_model_outcome st :
  (∃ h st1, load_model st = (Ok (Some h), st1) ∧ MODEL st1 = Some h) ∨
  (∃ e st1, load_model st = (Raise e, st1) ∧ MODEL st1 = None).
Proof.
  destruct (MODEL st) as [h|] eqn:HM.
  - left. exists h, st. split; [apply load_model_cached|]; assumption.
  - rewrite (load_model_first st HM).
    destruct (ext_load_model (model_name st) (world st)) as [[e|h] w].
    + right. exists e, (load_failed w st). split; reflexivity.
    + left. exists h, (loaded h w st). split; reflexivity.
Qed.

End LoadModelFacts.

(** ** [transcribe_audio] *)

Section TranscribeFacts.
Context {W Model : Type} `{!Outside W Model}.
Implicit Types (st : state W Model) (m : Model) (e : exception) (p : pystr).

(** Unfolds the body of [transcribe_audio] after its call to [load_model]. *)
Ltac enter_transcribe Hload :=
  unfold transcribe_audio, try_except, mbind, M_bind;
  rewrite Hload; simpl.

(** A fault of the load is caught. *)
Lemma transcribe_audio_load_raises st p e st1 :
  load_model st = (Raise e, st1) →
  transcribe_audio p st = (Ok (failure_variant (exc_str e)), st1).
Proof. intros Hload. enter_transcribe Hload. reflexivity. Qed.

(** A fault of the transcription call is caught. *)
Lemma transcribe_audio_call_raises st p m st0 e w :
  load_model st = (Ok (Some m), st0) →
  ext_transcribe m p transcribe_kwargs (world st0) = (inl e, w) →
  transcribe_audio p st = (Ok (failure_variant (exc_str e)), transcribed m p w st0).
Proof. intros Hload Hcall. enter_transcribe Hload. rewrite Hcall. reflexivity. Qed.

(** What is made of the model's result [d]: always a [dict] with a boolean
    under [success], and no further effect. *)
Lemma transcribe_audio_call_returns st p m st0 d w :
  load_model st = (Ok (Some m), st0) →
  ext_transcribe m p transcribe_kwargs (world st0) = (inr d, w) →
  ∃ r flag, transcribe_audio p st = (Ok r, transcribed m p w st0) ∧
            dict_lookup (str "success") r = Some (PBool flag).
Proof.
  intros Hload Hcall. enter_transcribe Hload. rewrite Hcall. simpl.
  unfold getitem.
  destruct (d !! str "text") as [[| b | z | t | l | kv]|]; simpl;
    try (eexists _, false; split; reflexivity).
  destruct (default (PList []) (d !! str "segments")) as [| b | z | s | l | kv];
    simpl; (eexists _, _; split; reflexivity).
Qed.

(** [transcribe_audio] always returns: a fault, or a handle and what came
    of the transcription call. *)
Lemma transcribe_audio_cases st p :
  (∃ e st1, load_model st = (Raise e, st1) ∧ MODEL st1 = None ∧
            transcribe_audio p st = (Ok (failure_variant (exc_str e)), st1)) ∨
  (∃ m st0 w r flag,
      load_model st = (Ok (Some m), st0) ∧ MODEL st0 = Some m ∧
      transcribe_audio p st = (Ok r, transcribed m p w st0) ∧
      dict_lookup (str "success") r = Some (PBool flag)).
Proof.
  destruct (load_model_outcome st) as [(m & st0 & Hload & HM)|(e & st1 & Hload & HM)].
  - right.
    destruct (ext_transcribe m p transcribe_kwargs (world st0)) as [[e|d] w] eqn:Hcall.
    + exists m, st0, w, (failure_variant (exc_str e)), false.
      repeat split; try assumption.
      eapply transcribe_audio_call_raises; eassumption.
    + destruct (transcribe_audio_call_returns st p m st0 d w Hload Hcall)
        as (r & flag & Hr & Hflag).
      exists m, st0, w, r, flag. repeat split; assumption.
  - left. exists e, st1. repeat split; try assumption.
    apply transcribe_audio_load_raises. exact Hload.
Qed.

(** [load_model] writes nothing on standard output and leaves the command
    line alone. *)
Lemma load_model_stdout st :
  sys_stdout (snd (load_model st)) = sys_stdout st ∧
  sys_argv (snd (load_model st)) = sys_argv st.
Proof.
  destruct (MODEL st) as [h|] eqn:HM.
  - rewrite (load_model_cached st h HM). split; reflexivity.
  - rewrite (load_model_first st HM).
    destruct (ext_load_model (model_name st) (world st)) as [[e|h] w];
      split; reflexivity.
Qed.

(** No exception escapes [transcribe_audio], and standard output is as it
    was. *)
Lemma transcribe_audio_returns st p :
  ∃ r st1 flag,
    transcribe_audio p st = (Ok r, st1) ∧
    dict_lookup (str "success") r = Some (PBool flag) ∧
    sys_stdout st1 = sys_stdout st.
Proof.
  pose proof (load_model_stdout st) as [Hout _].
  destruct (transcribe_audio_cases st p)
    as [(e & st1 & Hload & _ & Hta)|(m & st0 & w & r & flag & Hload & _ & Hta & Hflag)];
    rewrite Hload in Hout; simpl in Hout.
  - exists (failure_variant (exc_str e)), st1, false.
    repeat split; assumption.
  - exists r, (transcribed m p w st0), flag. repeat split; assumption.
Qed.

(** The three ways [transcribe_audio] leaves the process: the handle was
    cached and the call was made; the load failed; the load succeeded and
    the call was made. *)
Lemma transcribe_audio_shape st p :
  ∃ r flag st1,
    transcribe_audio p st = (Ok r, st1) ∧
    dict_lookup (str "success") r = Some (PBool flag) ∧
    ((∃ m w, MODEL st = Some m ∧ st1 = transcribed m p w st) ∨
     (∃ w, MODEL st = None ∧ st1 = load_failed w st) ∨
     (∃ m w w', MODEL st = None ∧ st1 = transcribed m p w' (loaded m w st))).
Proof.
  destruct (transcribe_audio_cases st p)
    as [(e & st1 & Hload & _ & Hta)|(m & st0 & w & r & flag & Hload & _ & Hta & Hflag)].
  - exists (failure_variant (exc_str e)), false, st1.
    split; [exact Hta|]. split; [reflexivity|].
    destruct (MODEL st) as [h|] eqn:HM.
    + rewrite (load_model_cached st h HM) in Hload. discriminate.
    + rewrite (load_model_first st HM) in Hload.
      destruct (ext_load_model (model_name st) (world st)) as [[e'|h] w'];
        [|discriminate].
      injection Hload as _ <-. right; left. exists w'. split; reflexivity.
  - exists r, flag, (transcribed m p w st0).
    split; [exact Hta|]. split; [exact Hflag|].
    destruct (MODEL st) as [h|] eqn:HM.
    + rewrite (load_model_cached st h HM) in Hload. injection Hload as <- <-.
      left. exists h, w. split; reflexivity.
    + rewrite (load_model_first st HM) in Hload.
      destruct (ext_load_model (model_name st) (world st)) as [[e'|h] w'];
        [discriminate|].
      injection Hload as <- <-.
      right; right. exists h, w', w. split; reflexivity.
Qed.

End TranscribeFacts.

(** ** [main] *)

Section MainFacts.
Context {W Model : Type} `{!Outside W Model}.
Implicit Types (st : state W Model) (m h : Model) (e : exception) (p : pystr).
Import Json.

(** [json.dumps] raises what [JsonCheck.refusal] says, or returns the text;
    the state is not touched. *)
Lemma json_dumps_cases (v : pyval) st :
  json_dumps v st =
    match JsonCheck.refusal sys_int_max_str_digits (Pos.to_nat json_max_depth) v with
    | Some e => (Raise e, st)
    | None => (Ok (dumps v), st)
    end.
Proof.
  unfold json_dumps.
  destruct (JsonCheck.refusal sys_int_max_str_digits (Pos.to_nat json_max_depth) v);
    reflexivity.
Qed.

(** A failure variant holds a [bool] and a [str] in one [dict]: the encoder
    never refuses it. *)
Lemma failure_serialisable (msg : pystr) : serialisable (PDict (failure_variant msg)).
Proof.
  unfold serialisable.
  destruct (Pos2Nat.is_succ json_max_depth) as [d ->]. reflexivity.
Qed.

Lemma json_dumps_failure (msg : pystr) st :
  json_dumps (PDict (failure_variant msg)) st =
    (Ok (dumps (PDict (failure_variant msg))), st).
Proof.
  rewrite json_dumps_cases. rewrite (failure_serialisable msg). reflexivity.
Qed.

(** [main] on a command line that names a path: the outcomes. *)
Lemma run_with_path st prog p rest :
  sys_argv st = prog :: p :: rest →
  run st =
    if ext_exists p (world st) then
      match transcribe_audio p st with
      | (Ok r, st1) =>
          match JsonCheck.refusal sys_int_max_str_digits
                  (Pos.to_nat json_max_depth) (PDict r) with
          | Some e => (Crashed e, st1)
          | None =>
              match dict_lookup (str "success") r with
              | Some v => (Exited (if truthy v then 0 else 1),
                           with_stdout (sys_stdout st1 ++ dumps (PDict r) ++ [10]) st1)
              | None => (Crashed (KeyError (str "success")),
                         with_stdout (sys_stdout st1 ++ dumps (PDict r) ++ [10]) st1)
              end
          end
      | (Raise e, st1) => (Crashed e, st1)
      | (SysExit c, st1) => (Exited c, st1)
      end
    else
      (Exited 1,
       with_stdout (sys_stdout st ++
         dumps (PDict (failure_variant (str "Audio file not found: " ++ p))) ++ [10]) st).
Proof.
  intros Hargv.
  unfold run, main, mbind, M_bind, get_argv. rewrite Hargv.
  rewrite bool_decide_eq_false_2 by (cbn [length]; lia).
  cbn -[app str json_dumps transcribe_audio dumps JsonCheck.refusal].
  destruct (ext_exists p (world st)); cbn -[app str json_dumps transcribe_audio dumps JsonCheck.refusal].
  - destruct (transcribe_audio p st) as [[r|e|c] st1]; try reflexivity.
    cbn -[app str json_dumps dumps JsonCheck.refusal]. rewrite json_dumps_cases.
    destruct (JsonCheck.refusal sys_int_max_str_digits
                (Pos.to_nat json_max_depth) (PDict r)); [reflexivity|].
    cbn -[app str dumps JsonCheck.refusal].
    unfold dict_getitem. destruct (dict_lookup (str "success") r); reflexivity.
  - pose proof (json_dumps_failure (str "Audio file not found: " ++ p) st) as Hline.
    unfold failure_variant in Hline. rewrite Hline. reflexivity.
Qed.

(** [main] on a command line without a path. *)
Lemma run_without_path st :
  (length (sys_argv st) < 2)%nat →
  run st =
    (Exited 1,
     with_stdout
       (sys_stdout st ++
        dumps (PDict (failure_variant (str "No audio file provided"))) ++ [10]) st).
Proof.
  intros Hlen.
  unfold run, main, mbind, M_bind, get_argv.
  rewrite bool_decide_eq_true_2 by exact Hlen.
  pose proof (json_dumps_failure (str "No audio file provided") st) as Hline.
  unfold failure_variant in Hline. rewrite Hline. reflexivity.
Qed.

(** A run that reaches [transcribe_audio] and whose result [json.dumps]
    accepts: one line, a status, and at most the two progress lines. *)
Lemma run_output_serialised st prog p rest r st1 flag :
  sys_argv st = prog :: p :: rest →
  ext_exists p (world st) = true →
  transcribe_audio p st = (Ok r, st1) →
  dict_lookup (str "success") r = Some (PBool flag) →
  serialisable (PDict r) →
  run st =
    (Exited (if flag then 0 else 1),
     with_stdout (sys_stdout st ++ dumps (PDict r) ++ [10]) st1).
Proof.
  intros Hargv Hfound Hta Hflag Hser.
  destruct (transcribe_audio_returns st p) as (r' & st1' & flag' & Hta' & _ & Hout).
  rewrite Hta in Hta'. injection Hta' as <- <-.
  rewrite (run_with_path st prog p rest Hargv), Hfound, Hta, Hser, Hflag, Hout.
  reflexivity.
Qed.

(** C2. Run without an argument, [main] prints the JSON object
    [{success: false, error: No audio file provided}], in exactly that
    text, and the process exits with status 1. *)
Theorem main_without_argument st :
  (length (sys_argv st) < 2)%nat →
  run st =
    (Exited 1,
     with_stdout
       (sys_stdout st ++
        (str "{" ++ quoted (str "success") ++ str ": false, " ++
         quoted (str "error") ++ str ": " ++
         quoted (str "No audio file provided") ++ str "}") ++ [10]) st) ∧
  dumps (PDict (failure_variant (str "No audio file provided"))) =
    str "{" ++ quoted (str "success") ++ str ": false, " ++
    quoted (str "error") ++ str ": " ++
    quoted (str "No audio file provided") ++ str "}".
Proof.
  intros Hlen. split; [|reflexivity].
  rewrite (run_without_path st Hlen). reflexivity.
Qed.

(** C3. When the path [p] on the command line does not exist, [main]
    prints the JSON object [{success: false, error: Audio file not
    found: p}] and the process exits with status 1; nothing else in the
    process changes: no model is loaded and no transcription is called.
    The printed text is spelled out; a path of plain characters appears
    in it as it is. *)
Theorem main_file_not_found st prog p rest :
  sys_argv st = prog :: p :: rest →
  ext_exists p (world st) = false →
  run st =
    (Exited 1,
     with_stdout
       (sys_stdout st ++
        dumps (PDict (failure_variant (str "Audio file not found: " ++ p))) ++ [10]) st) ∧
  dumps (PDict (failure_variant (str "Audio file not found: " ++ p))) =
    str "{" ++ quoted (str "success") ++ str ": false, " ++
    quoted (str "error") ++ str ": " ++
    encode_basestring_ascii (str "Audio file not found: " ++ p) ++ str "}" ∧
  (plain p →
   encode_basestring_ascii (str "Audio file not found: " ++ p) =
     quoted (str "Audio file not found: " ++ p)).
Proof.
  intros Hargv Hmissing. split; [|split].
  - rewrite (run_with_path st prog p rest Hargv), Hmissing. reflexivity.
  - reflexivity.
  - intros Hp. apply encode_plain. apply Forall_app. split; [|exact Hp].
    apply (bool_decide_unpack _). vm_compute. exact I.
Qed.

(** C4, as amended. When the path on the command line exists and
    [json.dumps] accepts what [transcribe_audio] returned, [main] prints the
    JSON serialisation of that result, and the process exits with status 0
    when the result's [success] is true and with status 1 otherwise. *)
Theorem main_prints_result st prog p rest :
  sys_argv st = prog :: p :: rest →
  ext_exists p (world st) = true →
  (∀ result st1,
     transcribe_audio p st = (Ok result, st1) → serialisable (PDict result)) →
  ∃ result st1 flag code,
    transcribe_audio p st = (Ok result, st1) ∧
    dict_lookup (str "success") result = Some (PBool flag) ∧
    run st = (Exited code,
              with_stdout (sys_stdout st ++ dumps (PDict result) ++ [10]) st1) ∧
    (code = 0%Z ↔ flag = true) ∧ (code = 1%Z ↔ flag = false).
Proof.
  intros Hargv Hfound Hser.
  destruct (transcribe_audio_returns st p) as (r & st1 & flag & Hta & Hflag & Hout).
  exists r, st1, flag, (if flag then 0%Z else 1%Z).
  split; [exact Hta|]. split; [exact Hflag|]. split.
  - apply (run_output_serialised st prog p rest r st1 flag); try assumption.
    apply (Hser r st1 Hta).
  - destruct flag; split; split; intros; congruence.
Qed.


End MainFacts.

(** ** What [transcribe_audio] returns *)

Section TranscribeTheorems.
Context {W Model : Type} `{!Outside W Model}.
Implicit Types (st : state W Model) (m h : Model) (e : exception) (p : pystr).
Import Json.

(** C1, as amended. Whatever fault [e] the model load or the
    transcription call raises, [transcribe_audio] returns the failure
    variant whose [error] is [str(e)] (a text that may be empty), so no
    exception leaves it; and [main], run on that existing path, prints this
    variant and the process exits with status 1. *)
Theorem transcribe_audio_catches st p e st1 :
  capability_raises p st e st1 →
  transcribe_audio p st = (Ok (failure_variant (exc_str e)), st1) ∧
  ∀ prog rest,
    sys_argv st = prog :: p :: rest →
    ext_exists p (world st) = true →
    run st =
      (Exited 1,
       with_stdout
         (sys_stdout st1 ++ dumps (PDict (failure_variant (exc_str e))) ++ [10]) st1).
Proof.
  intros Hraises.
  assert (Hta : transcribe_audio p st = (Ok (failure_variant (exc_str e)), st1)).
  { destruct Hraises as [(HM & w & Hload & ->)|(m & st0 & w & Hload & Hcall & ->)].
    - apply transcribe_audio_load_raises.
      rewrite (load_model_first st HM), Hload. reflexivity.
    - eapply transcribe_audio_call_raises; eassumption. }
  split; [exact Hta|].
  intros prog rest Hargv Hfound.
  rewrite (run_with_path st prog p rest Hargv), Hfound, Hta,
    (failure_serialisable (exc_str e)).
  reflexivity.
Qed.

(** C5. When the model call succeeds with a result [d] whose transcript is
    the text [t], [transcribe_audio] returns the success variant: [text] is
    [t] with the white space at both ends cut off, [language] is the
    language in [d], or [en] when [d] has none, and [segments] is the
    number of segments in [d], or 0 when [d] has none; it is never
    negative. *)
Theorem transcribe_audio_success st p d st1 t (segs : option (list pyval)) :
  capability_returns p st d st1 →
  d !! str "text" = Some (PStr t) →
  d !! str "segments" = PList <$> segs →
  transcribe_audio p st =
    (Ok (success_variant (strip t)
           (default (PStr (str "en")) (d !! str "language"))
           (Z.of_nat (length (default [] segs)))), st1) ∧
  (∃ pre post, t = pre ++ strip t ++ post ∧ blank pre ∧ blank post ∧
               trimmed (strip t)) ∧
  (0 ≤ Z.of_nat (length (default [] segs)))%Z.
Proof.
  intros (m & st0 & w & Hload & Hcall & ->) Htext Hsegs.
  split; [|split; [apply strip_spec | lia]].
  unfold transcribe_audio, try_except, mbind, M_bind.
  rewrite Hload. simpl. rewrite Hcall. simpl.
  unfold getitem. rewrite Htext. simpl. rewrite Hsegs.
  destruct segs as [l|]; reflexivity.
Qed.

(** C10. The keys of the model's result are not treated alike: without
    [text], [transcribe_audio] returns the failure variant, its error the
    description of the [KeyError]; without [language] the success variant
    carries [en], and without [segments] it carries 0. *)
Theorem transcribe_audio_missing_keys st p d st1 :
  capability_returns p st d st1 →
  (d !! str "text" = None →
   transcribe_audio p st = (Ok (failure_variant (str "'text'")), st1)) ∧
  (∀ t (segs : option (list pyval)),
     d !! str "text" = Some (PStr t) →
     d !! str "language" = None →
     d !! str "segments" = PList <$> segs →
     transcribe_audio p st =
       (Ok (success_variant (strip t) (PStr (str "en"))
              (Z.of_nat (length (default [] segs)))), st1)) ∧
  (∀ t,
     d !! str "text" = Some (PStr t) →
     d !! str "segments" = None →
     transcribe_audio p st =
       (Ok (success_variant (strip t)
              (default (PStr (str "en")) (d !! str "language")) 0), st1)).
Proof.
  intros (m & st0 & w & Hload & Hcall & ->).
  split; [|split].
  - intros Htext.
    unfold transcribe_audio, try_except, mbind, M_bind.
    rewrite Hload. simpl. rewrite Hcall. simpl.
    unfold getitem. rewrite Htext. reflexivity.
  - intros t segs Htext Hlang Hsegs.
    unfold transcribe_audio, try_except, mbind, M_bind.
    rewrite Hload. simpl. rewrite Hcall. simpl.
    unfold getitem. rewrite Htext. simpl. rewrite Hlang, Hsegs.
    destruct segs as [l|]; reflexivity.
  - intros t Htext Hsegs.
    unfold transcribe_audio, try_except, mbind, M_bind.
    rewrite Hload. simpl. rewrite Hcall. simpl.
    unfold getitem. rewrite Htext. simpl. rewrite Hsegs. reflexivity.
Qed.

(** The calls [transcribe_audio] adds to the log. *)
Lemma transcribe_audio_new_calls st p :
  ∃ new,
    calls (snd (transcribe_audio p st)) = calls st ++ new ∧
    (new = [] ∨ new = load_calls st ∨
     (∃ m, new = [CallTranscribe m p transcribe_kwargs]) ∨
     (∃ m, new = load_calls st ++ [CallTranscribe m p transcribe_kwargs])).
Proof.
  destruct (transcribe_audio_cases st p)
    as [(e & st1 & Hload & _ & Hta)|(m & st0 & w & r & flag & Hload & _ & Hta & _)];
    rewrite Hta; simpl.
  - destruct (MODEL st) as [h|] eqn:HM.
    + rewrite (load_model_cached st h HM) in Hload. discriminate.
    + rewrite (load_model_first st HM) in Hload.
      destruct (ext_load_model (model_name st) (world st)) as [[e'|h] w'];
        [|discriminate].
      injection Hload as _ <-. exists (load_calls st). simpl. tauto.
  - destruct (MODEL st) as [h|] eqn:HM.
    + rewrite (load_model_cached st h HM) in Hload. injection Hload as _ <-.
      exists [CallTranscribe m p transcribe_kwargs]. split; [reflexivity|].
      right; right; left. exists m. reflexivity.
    + rewrite (load_model_first st HM) in Hload.
      destruct (ext_load_model (model_name st) (world st)) as [[e'|h] w'];
        [discriminate|].
      injection Hload as _ <-.
      exists (load_calls st ++ [CallTranscribe m p transcribe_kwargs]). split.
      * simpl. rewrite <- app_assoc. reflexivity.
      * right; right; right. exists m. reflexivity.
Qed.

(** C8. Each call of the model's transcription that [transcribe_audio]
    makes is on the given path, with the keyword arguments
    [language='en'], [fp16=False], [verbose=False] and no others. *)
Theorem transcribe_audio_fixed_options st p :
  ∃ new,
    calls (snd (transcribe_audio p st)) = calls st ++ new ∧
    ∀ m audio kwargs,
      CallTranscribe m audio kwargs ∈ new →
      audio = p ∧
      kwargs = [(str "language", PStr (str "en")); (str "fp16", PBool false);
                (str "verbose", PBool false)].
Proof.
  destruct (transcribe_audio_new_calls st p) as (new & Hcalls & Hnew).
  exists new. split; [exact Hcalls|].
  intros m audio kwargs Hin. apply list_elem_of_In in Hin.
  destruct Hnew as [-> | [-> | [(m' & ->) | (m' & ->)]]]; simpl in Hin;
    repeat match goal with
           | H : _ ∨ _ |- _ => destruct H
           | H : False |- _ => destruct H
           | H : CallGetenv _ _ = CallTranscribe _ _ _ |- _ => discriminate H
           | H : CallLoadModel _ = CallTranscribe _ _ _ |- _ => discriminate H
           | H : CallTranscribe _ _ _ = CallTranscribe _ _ _ |- _ =>
               injection H as <- <- <-
           end;
    split; reflexivity.
Qed.

End TranscribeTheorems.

(** ** The memoised handle *)

Section MemoTheorems.
Context {W Model : Type} `{!Outside W Model}.
Implicit Types (st : state W Model) (m h : Model) (e : exception) (p : pystr).

(** Once set, [MODEL] stays: [transcribe_audio] does not change it. *)
Lemma transcribe_audio_keeps_MODEL st p h :
  MODEL st = Some h → MODEL (snd (transcribe_audio p st)) = Some h.
Proof.
  intros HM.
  destruct (transcribe_audio_shape st p) as (r & flag & st1 & Hta & _ & Hst1).
  rewrite Hta. simpl.
  destruct Hst1 as [(m & w & _ & ->) | [(w & HN & _) | (m & w & w' & HN & _)]];
    [exact HM | congruence | congruence].
Qed.

(** C7. [load_model] is memoised.  The first call, with [MODEL] unset,
    reads [WHISPER_MODEL] from the environment, [tiny] when it is not set,
    loads that variant and stores the handle in [MODEL].  From then on the
    handle stays in [MODEL], and every call of [load_model] returns it and
    leaves the whole state as it was: the environment is not read and the
    library is not called again. *)
Theorem load_model_memoized st h (w : W) :
  MODEL st = None →
  ext_load_model (default (str "tiny") (os_environ st !! str "WHISPER_MODEL"))
    (world st) = (inr h, w) →
  load_model st = (Ok (Some h), loaded h w st) ∧
  MODEL (loaded h w st) = Some h ∧
  calls (loaded h w st) =
    calls st ++ [CallGetenv (str "WHISPER_MODEL") (str "tiny");
                 CallLoadModel (default (str "tiny")
                                  (os_environ st !! str "WHISPER_MODEL"))] ∧
  load_model (loaded h w st) = (Ok (Some h), loaded h w st) ∧
  (∀ st2, MODEL st2 = Some h →
          load_model st2 = (Ok (Some h), st2) ∧
          ∀ p, MODEL (snd (transcribe_audio p st2)) = Some h).
Proof.
  intros HM Hload. fold (model_name st) in Hload.
  split; [rewrite (load_model_first st HM), Hload; reflexivity|].
  split; [reflexivity|]. split; [reflexivity|].
  split; [apply load_model_cached; reflexivity|].
  intros st2 HM2. split; [apply load_model_cached; exact HM2|].
  intros p. apply transcribe_audio_keeps_MODEL. exact HM2.
Qed.

(** C9. A load that fails caches nothing.  When [whisper.load_model]
    raises, [load_model] raises the same fault and [MODEL] is still unset
    (seen from [transcribe_audio] too, which catches the fault); the next
    call of [load_model] goes through the whole initialisation again: it
    reads the environment and calls [whisper.load_model] once more, and
    stores the handle if this time the load returns one. *)
Theorem load_model_failure_not_cached st e (w : W) :
  MODEL st = None →
  ext_load_model (model_name st) (world st) = (inl e, w) →
  load_model st = (Raise e, load_failed w st) ∧
  MODEL (load_failed w st) = None ∧
  (∀ p, transcribe_audio p st =
          (Ok (failure_variant (exc_str e)), load_failed w st)) ∧
  (∃ out st2,
     load_model (load_failed w st) = (out, st2) ∧
     calls st2 =
       calls (load_failed w st) ++
       [CallGetenv (str "WHISPER_MODEL") (str "tiny");
        CallLoadModel (model_name st)] ∧
     (∀ h w', ext_load_model (model_name st) w = (inr h, w') →
              out = Ok (Some h) ∧ MODEL st2 = Some h) ∧
     (∀ e' w', ext_load_model (model_name st) w = (inl e', w') →
               out = Raise e' ∧ MODEL st2 = None)).
Proof.
  intros HM Hload.
  assert (Hfirst : load_model st = (Raise e, load_failed w st)).
  { rewrite (load_model_first st HM), Hload. reflexivity. }
  split; [exact Hfirst|]. split; [reflexivity|]. split.
  { intros p. apply transcribe_audio_load_raises. exact Hfirst. }
  assert (HM1 : MODEL (load_failed w st) = None) by reflexivity.
  rewrite (load_model_first (load_failed w st) HM1).
  change (model_name (load_failed w st)) with (model_name st).
  change (world (load_failed w st)) with w.
  destruct (ext_load_model (model_name st) w) as [[e'|h] w'].
  - eexists _, _. split; [reflexivity|]. split; [reflexivity|].
    split; [intros h w'' [=] | intros e'' w'' [= -> _]; split; reflexivity].
  - eexists _, _. split; [reflexivity|]. split; [reflexivity|].
    split; [intros h' w'' [= -> _]; split; reflexivity | intros e'' w'' [=]].
Qed.

End MemoTheorems.

(** ** Concrete runs *)

Section Runs.
Import Demo Json.

Lemma main_without_argument_witness :
  run no_argument =
    (Exited 1,
     with_stdout
       (sys_stdout no_argument ++
        (str "{" ++ quoted (str "success") ++ str ": false, " ++
         quoted (str "error") ++ str ": " ++
         quoted (str "No audio file provided") ++ str "}") ++ [10]) no_argument) ∧
  dumps (PDict (failure_variant (str "No audio file provided"))) =
    str "{" ++ quoted (str "success") ++ str ": false, " ++
    quoted (str "error") ++ str ": " ++
    quoted (str "No audio file provided") ++ str "}".
Proof. apply (main_without_argument no_argument). simpl. lia. Defined.

Lemma main_file_not_found_witness :
  run missing_file =
    (Exited 1,
     with_stdout
       (sys_stdout missing_file ++
        dumps (PDict (failure_variant (str "Audio file not found: " ++ wav))) ++ [10])
       missing_file) ∧
  dumps (PDict (failure_variant (str "Audio file not found: " ++ wav))) =
    str "{" ++ quoted (str "success") ++ str ": false, " ++
    quoted (str "error") ++ str ": " ++
    encode_basestring_ascii (str "Audio file not found: " ++ wav) ++ str "}" ∧
  (plain wav →
   encode_basestring_ascii (str "Audio file not found: " ++ wav) =
     quoted (str "Audio file not found: " ++ wav)).
Proof.
  apply (main_file_not_found missing_file prog wav []); reflexivity.
Defined.

Lemma main_prints_result_witness :
  ∃ result st1 flag code,
    transcribe_audio wav good_run = (Ok result, st1) ∧
    dict_lookup (str "success") result = Some (PBool flag) ∧
    run good_run =
      (Exited code,
       with_stdout (sys_stdout good_run ++ dumps (PDict result) ++ [10]) st1) ∧
    (code = 0%Z ↔ flag = true) ∧ (code = 1%Z ↔ flag = false).
Proof.
  apply (main_prints_result good_run prog wav []).
  - reflexivity.
  - reflexivity.
  - intros result st1 Hta. vm_compute in Hta. injection Hta as <- <-.
    vm_compute. reflexivity.
Defined.

Lemma transcribe_audio_catches_witness :
  transcribe_audio wav bad_variant =
    (Ok (failure_variant (str "Model large-v9 not found")),
     load_failed (mkWorld [inr 7] [inr hello] [wav]) bad_variant) ∧
  ∀ prog rest,
    sys_argv bad_variant = prog :: wav :: rest →
    ext_exists wav (world bad_variant) = true →
    run bad_variant =
      (Exited 1,
       with_stdout
         (sys_stdout (load_failed (mkWorld [inr 7] [inr hello] [wav]) bad_variant) ++
          dumps (PDict (failure_variant (str "Model large-v9 not found"))) ++ [10])
         (load_failed (mkWorld [inr 7] [inr hello] [wav]) bad_variant)).
Proof.
  apply (transcribe_audio_catches bad_variant wav unknown_model).
  left. split; [reflexivity|].
  exists (mkWorld [inr 7] [inr hello] [wav]). split; reflexivity.
Defined.

(** C1, as stated, fails: the transcription raises an [AssertionError]
    without a message, and the [error] of the failure variant is the empty
    string. *)
Lemma transcribe_audio_empty_error :
  capability_raises wav silent_fault bare_assertion
    (transcribed 7 wav (mkWorld [] [] [wav])
       (loaded 7 (mkWorld [] [inl bare_assertion] [wav]) silent_fault)) ∧
  fst (transcribe_audio wav silent_fault) =
    Ok [(str "success", PBool false); (str "error", PStr [])] ∧
  ¬ (∃ msg, msg ≠ [] ∧
            fst (transcribe_audio wav silent_fault) =
              Ok [(str "success", PBool false); (str "error", PStr msg)]).
Proof.
  split; [|split].
  - right. exists 7, (loaded 7 (mkWorld [] [inl bare_assertion] [wav]) silent_fault),
      (mkWorld [] [] [wav]).
    repeat split; reflexivity.
  - reflexivity.
  - intros (msg & Hmsg & Heq). vm_compute in Heq. congruence.
Qed.

Lemma transcribe_audio_success_witness :
  transcribe_audio wav good_run =
    (Ok (success_variant (strip (str " Hello world. "))
           (default (PStr (str "en")) (hello !! str "language"))
           (Z.of_nat (length (default []
              (Some [PDict [(str "id", PInt 0);
                            (str "text", PStr (str " Hello world."))]]))))),
     transcribed 7 wav (mkWorld [] [] [wav])
       (loaded 7 (mkWorld [] [inr hello] [wav]) good_run)) ∧
  (∃ pre post,
     str " Hello world. " = pre ++ strip (str " Hello world. ") ++ post ∧
     blank pre ∧ blank post ∧ trimmed (strip (str " Hello world. "))) ∧
  (0 ≤ Z.of_nat (length (default []
          (Some [PDict [(str "id", PInt 0);
                        (str "text", PStr (str " Hello world."))]]))))%Z.
Proof.
  apply (transcribe_audio_success good_run wav hello).
  - exists 7, (loaded 7 (mkWorld [] [inr hello] [wav]) good_run),
      (mkWorld [] [] [wav]).
    repeat split; reflexivity.
  - reflexivity.
  - reflexivity.
Defined.

Lemma transcribe_audio_missing_keys_witness :
  (delete (str "text") hello !! str "text" = None →
   transcribe_audio wav no_text =
     (Ok (failure_variant (str "'text'")),
      transcribed 7 wav (mkWorld [] [] [wav])
        (loaded 7 (mkWorld [] [inr (delete (str "text") hello)] [wav]) no_text))) ∧
  (∀ t (segs : option (list pyval)),
     delete (str "text") hello !! str "text" = Some (PStr t) →
     delete (str "text") hello !! str "language" = None →
     delete (str "text") hello !! str "segments" = PList <$> segs →
     transcribe_audio wav no_text =
       (Ok (success_variant (strip t) (PStr (str "en"))
              (Z.of_nat (length (default [] segs)))),
        transcribed 7 wav (mkWorld [] [] [wav])
          (loaded 7 (mkWorld [] [inr (delete (str "text") hello)] [wav]) no_text))) ∧
  (∀ t,
     delete (str "text") hello !! str "text" = Some (PStr t) →
     delete (str "text") hello !! str "segments" = None →
     transcribe_audio wav no_text =
       (Ok (success_variant (strip t)
              (default (PStr (str "en"))
                 (delete (str "text") hello !! str "language")) 0),
        transcribed 7 wav (mkWorld [] [] [wav])
          (loaded 7 (mkWorld [] [inr (delete (str "text") hello)] [wav]) no_text))).
Proof.
  apply (transcribe_audio_missing_keys no_text wav (delete (str "text") hello)).
  exists 7, (loaded 7 (mkWorld [] [inr (delete (str "text") hello)] [wav]) no_text),
    (mkWorld [] [] [wav]).
  repeat split; reflexivity.
Defined.

(** The same on a result that has its [text] and nothing else: the
    defaults [en] and 0. *)
Example transcribe_audio_defaults :
  fst (transcribe_audio wav text_only) =
    Ok (success_variant (str "Hello world.") (PStr (str "en")) 0).
Proof. reflexivity. Qed.

Lemma load_model_memoized_witness :
  load_model good_run =
    (Ok (Some 7), loaded 7 (mkWorld [] [inr hello] [wav]) good_run) ∧
  MODEL (loaded 7 (mkWorld [] [inr hello] [wav]) good_run) = Some 7 ∧
  calls (loaded 7 (mkWorld [] [inr hello] [wav]) good_run) =
    calls good_run ++
    [CallGetenv (str "WHISPER_MODEL") (str "tiny");
     CallLoadModel (default (str "tiny")
                      (os_environ good_run !! str "WHISPER_MODEL"))] ∧
  load_model (loaded 7 (mkWorld [] [inr hello] [wav]) good_run) =
    (Ok (Some 7), loaded 7 (mkWorld [] [inr hello] [wav]) good_run) ∧
  (∀ st2 : state script N,
     MODEL st2 = Some 7 →
     load_model st2 = (Ok (Some 7), st2) ∧
     ∀ p, MODEL (snd (transcribe_audio p st2)) = Some 7).
Proof.
  apply (load_model_memoized good_run 7 (mkWorld [] [inr hello] [wav]));
    reflexivity.
Defined.

Lemma load_model_failure_not_cached_witness :
  load_model bad_variant =
    (Raise unknown_model,
     load_failed (mkWorld [inr 7] [inr hello] [wav]) bad_variant) ∧
  MODEL (load_failed (mkWorld [inr 7] [inr hello] [wav]) bad_variant) = None ∧
  (∀ p, transcribe_audio p bad_variant =
          (Ok (failure_variant (exc_str unknown_model)),
           load_failed (mkWorld [inr 7] [inr hello] [wav]) bad_variant)) ∧
  (∃ out st2,
     load_model (load_failed (mkWorld [inr 7] [inr hello] [wav]) bad_variant) =
       (out, st2) ∧
     calls st2 =
       calls (load_failed (mkWorld [inr 7] [inr hello] [wav]) bad_variant) ++
       [CallGetenv (str "WHISPER_MODEL") (str "tiny");
        CallLoadModel (model_name bad_variant)] ∧
     (∀ h w', ext_load_model (model_name bad_variant)
                (mkWorld [inr 7] [inr hello] [wav]) = (inr h, w') →
              out = Ok (Some h) ∧ MODEL st2 = Some h) ∧
     (∀ e' w', ext_load_model (model_name bad_variant)
                 (mkWorld [inr 7] [inr hello] [wav]) = (inl e', w') →
               out = Raise e' ∧ MODEL st2 = None)).
Proof.
  apply (load_model_failure_not_cached bad_variant unknown_model
           (mkWorld [inr 7] [inr hello] [wav])); reflexivity.
Defined.

(** The run on [bad_variant], then a second call of [load_model] in the
    same process: the variant is asked for again and the handle arrives. *)
Example second_load_succeeds :
  model_name bad_variant = str "large-v9" ∧
  fst (load_model (load_failed (mkWorld [inr 7] [inr hello] [wav]) bad_variant)) =
    Ok (Some 7).
Proof. split; reflexivity. Qed.

(** The text a successful run prints. *)
Example good_run_output :
  run good_run =
    (Exited 0,
     with_stdout
       (str "{" ++ quoted (str "success") ++ str ": true, " ++
        quoted (str "text") ++ str ": " ++ quoted (str "Hello world.") ++ str ", " ++
        quoted (str "language") ++ str ": " ++ quoted (str "en") ++ str ", " ++
        quoted (str "segments") ++ str ": 1}" ++ [10])
       (transcribed 7 wav (mkWorld [] [] [wav])
          (loaded 7 (mkWorld [] [inr hello] [wav]) good_run))).
Proof. reflexivity. Qed.

(** [json.dumps] and [strip] on small values. *)
Example dumps_values :
  dumps (PList [PInt 0; PInt (-12); PNone; PBool true; PDict []]) =
    str "[0, -12, null, true, {}]" ∧
  dumps (PStr [233; 10; 128512]) =
    quoted (str "\u00e9\n\ud83d\ude00").
Proof. split; reflexivity. Qed.

Example strip_values :
  strip ([160; 9] ++ str "a b" ++ [10; 8232]) = str "a b" ∧
  strip (str "   ") = [].
Proof. split; reflexivity. Qed.

End Runs.

(** * Further properties of the script *)

(** ** Every result of [transcribe_audio], case by case *)

Section ResultFacts.
Context {W Model : Type} `{!Outside W Model}.
Implicit Types (st : state W Model) (m h : Model) (e : exception) (p : pystr).
Import Json.

(** What [transcribe_audio] makes of the result [d] of the model. *)
Lemma transcribe_audio_of_result st p d st1 :
  capability_returns p st d st1 →
  transcribe_audio p st =
    (Ok match d !! str "text" with
        | None => failure_variant (exc_str (KeyError (str "text")))
        | Some (PStr t) =>
            let language := default (PStr (str "en")) (d !! str "language") in
            match default (PList []) (d !! str "segments") with
            | PStr s => success_variant (strip t) language (Z.of_nat (length s))
            | PList l => success_variant (strip t) language (Z.of_nat (length l))
            | PDict kv => success_variant (strip t) language (Z.of_nat (length kv))
            | v => failure_variant (exc_str (TypeError_len v))
            end
        | Some v => failure_variant (exc_str (AttributeError v (str "strip")))
        end, st1).
Proof.
  intros (m & st0 & w & Hload & Hcall & ->).
  unfold transcribe_audio, try_except, mbind, M_bind.
  rewrite Hload. cbn -[app str]. rewrite Hcall. cbn -[app str].
  unfold getitem.
  destruct (d !! str "text") as [[| b | z | t | l | kv]|]; try reflexivity.
  cbn -[app str].
  destruct (default (PList []) (d !! str "segments")) as [| b | z | s | l | kv];
    reflexivity.
Qed.

(** Either the collaborator raises, or the model call returns. *)
Lemma capability_outcome st p :
  (∃ e st1, capability_raises p st e st1) ∨
  (∃ d st1, capability_returns p st d st1).
Proof.
  destruct (MODEL st) as [h|] eqn:HM.
  - pose proof (load_model_cached st h HM) as Hload.
    destruct (ext_transcribe h p transcribe_kwargs (world st)) as [[e|d] w] eqn:Hcall.
    + left. exists e, (transcribed h p w st). right. exists h, st, w. auto.
    + right. exists d, (transcribed h p w st). exists h, st, w. auto.
  - pose proof (load_model_first st HM) as Hload.
    destruct (ext_load_model (model_name st) (world st)) as [[e|h] w] eqn:Hext.
    + left. exists e, (load_failed w st). left. split; [exact HM|]. exists w. auto.
    + destruct (ext_transcribe h p transcribe_kwargs w) as [[e|d] w'] eqn:Hcall.
      * left. exists e, (transcribed h p w' (loaded h w st)). right.
        exists h, (loaded h w st), w'. auto.
      * right. exists d, (transcribed h p w' (loaded h w st)).
        exists h, (loaded h w st), w'. auto.
Qed.

(** A caught fault gives the failure variant. *)
Lemma transcribe_audio_of_fault st p e st1 :
  capability_raises p st e st1 →
  transcribe_audio p st = (Ok (failure_variant (exc_str e)), st1).
Proof.
  intros [(HM & w & Hload & ->)|(m & st0 & w & Hload & Hcall & ->)].
  - apply transcribe_audio_load_raises.
    rewrite (load_model_first st HM), Hload. reflexivity.
  - eapply transcribe_audio_call_raises; eassumption.
Qed.

(** The result is one of the two variants; the text of a success is
    trimmed and its count is not negative. *)
Lemma transcribe_audio_variants st p :
  ∃ r st1,
    transcribe_audio p st = (Ok r, st1) ∧
    ((∃ msg, r = failure_variant msg) ∨
     (∃ d t language n,
        capability_returns p st d st1 ∧ d !! str "text" = Some (PStr t) ∧
        r = success_variant (strip t) language (Z.of_nat n))).
Proof.
  destruct (capability_outcome st p) as [(e & st1 & Hr)|(d & st1 & Hr)].
  - exists (failure_variant (exc_str e)), st1.
    split; [apply transcribe_audio_of_fault; exact Hr | left; eauto].
  - eexists _, st1. split; [apply transcribe_audio_of_result; exact Hr|].
    destruct (d !! str "text") as [[| b | z | t | l | kv]|] eqn:Htext;
      try (left; eexists; reflexivity).
    cbn zeta.
    destruct (default (PList []) (d !! str "segments")) as [| b | z | s | l | kv];
      try (left; eexists; reflexivity);
      right; eexists d, t, _, _; (split; [exact Hr|]); (split; [exact Htext|]);
      reflexivity.
Qed.

End ResultFacts.

(** ** Edge cases of the model's result *)

Section EdgeTheorems.
Context {W Model : Type} `{!Outside W Model}.
Implicit Types (st : state W Model) (m h : Model) (e : exception) (p : pystr).

Lemma lstrip_blank (s : pystr) : blank s → lstrip s = [].
Proof.
  induction 1 as [|c s Hc Hs IH]; cbn [lstrip]; [reflexivity|].
  rewrite Hc. exact IH.
Qed.

Lemma strip_blank (s : pystr) : blank s → strip s = [].
Proof. intros Hs. unfold strip. rewrite (lstrip_blank s Hs). reflexivity. Qed.

Lemma strip_nil_blank (s : pystr) : strip s = [] → blank s.
Proof.
  intros Hnil. destruct (strip_spec s) as (pre & post & Hs & Hpre & Hpost & _).
  rewrite Hnil in Hs. rewrite Hs. apply Forall_app. split; assumption.
Qed.

(** X4. A [text] that is not a string does not crash [transcribe_audio]:
    the [AttributeError] of the missing [strip] method is caught and
    returned as the failure variant. *)
Theorem text_not_a_string st p d st1 (v : pyval) :
  capability_returns p st d st1 →
  d !! str "text" = Some v →
  (∀ t, v ≠ PStr t) →
  transcribe_audio p st =
    (Ok (failure_variant
           (str "'" ++ type_name v ++ str "' object has no attribute 'strip'")),
     st1).
Proof.
  intros Hr Htext Hv. rewrite (transcribe_audio_of_result st p d st1 Hr), Htext.
  destruct v as [| b | z | t | l | kv]; try reflexivity.
  destruct (Hv t). reflexivity.
Qed.

(** X5. A [segments] entry without a length ([None], a [bool], an [int])
    turns an otherwise good result into the failure variant, its error the
    message of the [TypeError] of [len]. *)
Theorem segments_without_length st p d st1 (t : pystr) (v : pyval) :
  capability_returns p st d st1 →
  d !! str "text" = Some (PStr t) →
  d !! str "segments" = Some v →
  v = PNone ∨ (∃ b, v = PBool b) ∨ (∃ z, v = PInt z) →
  transcribe_audio p st =
    (Ok (failure_variant
           (str "object of type '" ++ type_name v ++ str "' has no len()")),
     st1).
Proof.
  intros Hr Htext Hsegs Hv.
  rewrite (transcribe_audio_of_result st p d st1 Hr), Htext, Hsegs.
  destruct Hv as [-> | [(b & ->) | (z & ->)]]; reflexivity.
Qed.

(** X7. A transcript that is empty or made of white space only (a silent
    recording) is a success, its [text] the empty string; and the [text]
    of a success is empty only for such a transcript. *)
Theorem blank_transcript st p d st1 (t : pystr) (segs : option (list pyval)) :
  capability_returns p st d st1 →
  d !! str "text" = Some (PStr t) →
  d !! str "segments" = PList <$> segs →
  (blank t →
   transcribe_audio p st =
     (Ok (success_variant [] (default (PStr (str "en")) (d !! str "language"))
            (Z.of_nat (length (default [] segs)))), st1)) ∧
  (∀ language n,
     transcribe_audio p st = (Ok (success_variant [] language n), st1) →
     blank t).
Proof.
  intros Hr Htext Hsegs.
  rewrite (transcribe_audio_of_result st p d st1 Hr), Htext, Hsegs.
  split.
  - intros Hblank. rewrite (strip_blank t Hblank). destruct segs; reflexivity.
  - intros language n Heq. apply strip_nil_blank.
    destruct segs; cbn in Heq; injection Heq as Heq _ _; exact Heq.
Qed.

(** X9. With a handle already in [MODEL], [transcribe_audio] makes one
    call and no other: [transcribe] on that handle.  It reads no
    environment variable, loads nothing, writes on neither stream and
    leaves the handle in place, whether the call returns or raises. *)
Theorem transcribe_audio_cached st p h :
  MODEL st = Some h →
  ∃ r st1,
    transcribe_audio p st = (Ok r, st1) ∧
    calls st1 = calls st ++ [CallTranscribe h p transcribe_kwargs] ∧
    world st1 = snd (ext_transcribe h p transcribe_kwargs (world st)) ∧
    sys_stderr st1 = sys_stderr st ∧ sys_stdout st1 = sys_stdout st ∧
    MODEL st1 = Some h.
Proof.
  intros HM. pose proof (load_model_cached st h HM) as Hload.
  destruct (ext_transcribe h p transcribe_kwargs (world st)) as [[e|d] w] eqn:Hcall.
  - exists (failure_variant (exc_str e)), (transcribed h p w st).
    split; [eapply transcribe_audio_call_raises; eassumption|].
    repeat split; try reflexivity. exact HM.
  - destruct (transcribe_audio_call_returns st p h st d w Hload Hcall)
      as (r & flag & Hta & _).
    exists r, (transcribed h p w st). split; [exact Hta|].
    repeat split; try reflexivity. exact HM.
Qed.

End EdgeTheorems.

(** ** Whole runs *)

Section RunTheorems.
Context {W Model : Type} `{!Outside W Model}.
Implicit Types (st : state W Model) (m h : Model) (e : exception) (p : pystr).
Import Json.

Lemma success_of_failure (msg : pystr) :
  dict_lookup (str "success") (failure_variant msg) = Some (PBool false).
Proof. reflexivity. Qed.

Lemma success_of_success (t : pystr) (language : pyval) (n : Z) :
  dict_lookup (str "success") (success_variant t language n) = Some (PBool true).
Proof. reflexivity. Qed.

(** A run that reaches [transcribe_audio]: what it prints and how it
    ends, from the result. *)
Lemma run_transcribing st prog p rest r st1 :
  sys_argv st = prog :: p :: rest →
  ext_exists p (world st) = true →
  transcribe_audio p st = (Ok r, st1) →
  (∀ msg, r = failure_variant msg →
     run st = (Exited 1,
               with_stdout (sys_stdout st ++ dumps (PDict r) ++ [10]) st1)) ∧
  (∀ t language n, r = success_variant t language n →
     run st =
       match JsonCheck.refusal sys_int_max_str_digits
               (Pos.to_nat json_max_depth) (PDict r) with
       | Some e => (Crashed e, st1)
       | None =>
           (Exited 0, with_stdout (sys_stdout st ++ dumps (PDict r) ++ [10]) st1)
       end).
Proof.
  intros Hargv Hfound Hta.
  destruct (transcribe_audio_returns st p) as (r' & st1' & flag & Hta' & _ & Hout).
  rewrite Hta in Hta'. injection Hta' as <- <-.
  split.
  - intros msg ->.
    rewrite (run_with_path st prog p rest Hargv), Hfound, Hta,
      (failure_serialisable msg), success_of_failure, Hout. reflexivity.
  - intros t language n ->.
    rewrite (run_with_path st prog p rest Hargv), Hfound, Hta,
      success_of_success, Hout. reflexivity.
Qed.

(** X2. A run ends in one of three ways, and how it ends tells what is on
    standard output: status 1 and a failure variant; status 0 and a success
    variant, whose text is trimmed and whose count is not negative; or an
    uncaught exception and nothing printed, which happens only when
    [transcribe_audio] returned a success variant and [json.dumps] raised
    on it. *)
Theorem run_three_outcomes st :
  ∃ t st1,
    run st = (t, st1) ∧
    ((t = Exited 1 ∧
      ∃ msg,
        sys_stdout st1 =
          sys_stdout st ++ dumps (PDict (failure_variant msg)) ++ [10]) ∨
     (t = Exited 0 ∧
      ∃ text language n,
        serialisable (PDict (success_variant text language n)) ∧
        sys_stdout st1 =
          sys_stdout st ++
          dumps (PDict (success_variant text language n)) ++ [10] ∧
        trimmed text ∧ (0 ≤ n)%Z) ∨
     (∃ e prog p rest text language n,
        t = Crashed e ∧
        sys_argv st = prog :: p :: rest ∧
        fst (transcribe_audio p st) = Ok (success_variant text language n) ∧
        JsonCheck.refusal sys_int_max_str_digits (Pos.to_nat json_max_depth)
          (PDict (success_variant text language n)) = Some e ∧
        sys_stdout st1 = sys_stdout st)).
Proof.
  assert (Hshort : (length (sys_argv st) < 2)%nat →
    ∃ t st1, run st = (t, st1) ∧
      t = Exited 1 ∧
      ∃ msg,
        sys_stdout st1 =
          sys_stdout st ++ dumps (PDict (failure_variant msg)) ++ [10]).
  { intros Hlen. eexists _, _. split; [apply run_without_path; exact Hlen|].
    split; [reflexivity|]. eexists. reflexivity. }
  destruct (sys_argv st) as [|prog [|p rest]] eqn:Hargv.
  - destruct Hshort as (t & st1 & Hrun & Ht); [cbn; lia|]. exists t, st1. tauto.
  - destruct Hshort as (t & st1 & Hrun & Ht); [cbn; lia|]. exists t, st1. tauto.
  - clear Hshort. destruct (ext_exists p (world st)) eqn:Hfound.
    + destruct (transcribe_audio_variants st p)
        as (r & st1 & Hta & [(msg & ->)|(d & t & language & n & _ & _ & ->)]);
        destruct (run_transcribing st prog p rest _ st1 Hargv Hfound Hta)
          as [Hfail Hgood].
      * eexists _, _. split; [apply (Hfail msg); reflexivity|].
        left. split; [reflexivity|]. eexists. reflexivity.
      * rewrite (Hgood _ _ _ eq_refl).
        destruct (JsonCheck.refusal sys_int_max_str_digits
                    (Pos.to_nat json_max_depth)
                    (PDict (success_variant (strip t) language (Z.of_nat n))))
          as [e|] eqn:Hser.
        -- eexists _, _. split; [reflexivity|]. right; right.
           exists e, prog, p, rest, (strip t), language, (Z.of_nat n).
           split; [reflexivity|]. split; [reflexivity|].
           split; [rewrite Hta; reflexivity|]. split; [exact Hser|].
           destruct (transcribe_audio_returns st p)
             as (r' & st1' & flag & Hta' & _ & Hout).
           rewrite Hta in Hta'. injection Hta' as _ <-. exact Hout.
        -- eexists _, _. split; [reflexivity|]. right; left.
           split; [reflexivity|].
           exists (strip t), language, (Z.of_nat n).
           split; [exact Hser|]. split; [reflexivity|]. split; [|lia].
           destruct (strip_spec t) as (_ & _ & _ & _ & _ & Htrim). exact Htrim.
    + rewrite (run_with_path st prog p rest Hargv), Hfound.
      eexists _, _. split; [reflexivity|].
      left. split; [reflexivity|]. eexists. reflexivity.
Qed.

(** X3. Status 0 is never a false success: a run that exits with 0 was
    given a path that exists, the model was there and its transcription
    call returned a result with a string under [text]; what is on standard
    output is the success variant of that transcript. *)
Theorem exit_zero_transcribed st st1 :
  run st = (Exited 0, st1) →
  ∃ prog p rest d t language n st0,
    sys_argv st = prog :: p :: rest ∧
    ext_exists p (world st) = true ∧
    capability_returns p st d st0 ∧
    d !! str "text" = Some (PStr t) ∧
    sys_stdout st1 =
      sys_stdout st ++
      dumps (PDict (success_variant (strip t) language (Z.of_nat n))) ++ [10].
Proof.
  intros Hrun.
  destruct (sys_argv st) as [|prog [|p rest]] eqn:Hargv.
  - rewrite run_without_path in Hrun by (rewrite Hargv; cbn; lia).
    discriminate Hrun.
  - rewrite run_without_path in Hrun by (rewrite Hargv; cbn; lia).
    discriminate Hrun.
  - destruct (ext_exists p (world st)) eqn:Hfound.
    + destruct (transcribe_audio_variants st p)
        as (r & st0 & Hta & [(msg & ->)|(d & t & language & n & Hr & Htext & ->)]);
        destruct (run_transcribing st prog p rest _ st0 Hargv Hfound Hta)
          as [Hfail Hgood].
      * rewrite (Hfail msg eq_refl) in Hrun. discriminate Hrun.
      * rewrite (Hgood _ _ _ eq_refl) in Hrun.
        destruct (JsonCheck.refusal sys_int_max_str_digits
                    (Pos.to_nat json_max_depth)
                    (PDict (success_variant (strip t) language (Z.of_nat n))));
          [discriminate Hrun|].
        injection Hrun as <-.
        exists prog, p, rest, d, t, language, n, st0.
        repeat split; try assumption.
    + rewrite (run_with_path st prog p rest Hargv), Hfound in Hrun.
      discriminate Hrun.
Qed.

(** How a run ends and what it has printed by then. *)
Lemma run_three_outcomes_aux st :
  ∃ t st1,
    run st = (t, st1) ∧
    ((∃ code obj,
        t = Exited code ∧ sys_stdout st1 = sys_stdout st ++ dumps (PDict obj) ++ [10]) ∨
     (∃ e, t = Crashed e ∧ sys_stdout st1 = sys_stdout st)).
Proof.
  destruct (sys_argv st) as [|prog [|p rest]] eqn:Hargv.
  - eexists _, _. split; [apply run_without_path; rewrite Hargv; cbn; lia|].
    left. eexists _, _. split; reflexivity.
  - eexists _, _. split; [apply run_without_path; rewrite Hargv; cbn; lia|].
    left. eexists _, _. split; reflexivity.
  - rewrite (run_with_path st prog p rest Hargv).
    destruct (ext_exists p (world st)).
    + destruct (transcribe_audio_returns st p) as (r & st1 & flag & Hta & Hflag & Hout).
      rewrite Hta, Hflag, Hout.
      destruct (JsonCheck.refusal sys_int_max_str_digits
                  (Pos.to_nat json_max_depth) (PDict r)) as [e|].
      * eexists _, _. split; [reflexivity|]. right. exists e. split; [reflexivity|].
        exact Hout.
      * eexists _, _. split; [reflexivity|]. left. eexists _, r.
        split; reflexivity.
    + eexists _, _. split; [reflexivity|]. left. eexists _, _. split; reflexivity.
Qed.

(** X1. Standard output is plain ASCII or empty: a run that ends on an
    exit status has written one line of printable ASCII characters (codes
    32 to 126) and a line feed, whatever the path, the transcript or the
    message of a fault holds; a run that ends on an uncaught exception has
    written nothing. *)
Theorem stdout_is_ascii argv environ (w : W) :
  ∃ t st1,
    run (start (Model:=Model) argv environ w) = (t, st1) ∧
    match t with
    | Exited _ => ∃ line, sys_stdout st1 = line ++ [10] ∧ Forall printable line
    | Crashed _ => sys_stdout st1 = []
    end.
Proof.
  destruct (run_three_outcomes_aux (start (Model:=Model) argv environ w))
    as (t & st1 & Hrun & Hcases).
  exists t, st1. split; [exact Hrun|].
  destruct Hcases as [(code & obj & -> & Hout) | (e & -> & Hout)].
  - exists (dumps (PDict obj)). split; [exact Hout | apply dumps_printable].
  - exact Hout.
Qed.

(** X10. The calls of a run started from scratch, exactly: none when no
    path is given or the path does not exist; otherwise the environment is
    read and the variant it names ([tiny] by default) is loaded, and if
    the load raises that is all; if it returns a handle, one transcription
    of the first argument follows, with the fixed options. *)
Theorem run_call_sequence argv environ (w : W) :
  calls (snd (run (start (Model:=Model) argv environ w))) =
    match argv with
    | _ :: p :: _ =>
        if ext_exists p w then
          let name := default (str "tiny") (environ !! str "WHISPER_MODEL") in
          match ext_load_model name w with
          | (inl _, _) =>
              [CallGetenv (str "WHISPER_MODEL") (str "tiny"); CallLoadModel name]
          | (inr h, _) =>
              [CallGetenv (str "WHISPER_MODEL") (str "tiny"); CallLoadModel name;
               CallTranscribe h p
                 [(str "language", PStr (str "en")); (str "fp16", PBool false);
                  (str "verbose", PBool false)]]
          end
        else []
    | _ => []
    end.
Proof.
  set (st := start (Model:=Model) argv environ w).
  destruct argv as [|prog [|p rest]].
  - subst st. rewrite run_without_path by (cbn; lia). reflexivity.
  - subst st. rewrite run_without_path by (cbn; lia). reflexivity.
  - assert (Hargv : sys_argv st = prog :: p :: rest) by reflexivity.
    rewrite (run_with_path st prog p rest Hargv).
    change (world st) with w.
    destruct (ext_exists p w); [|reflexivity].
    assert (HM : MODEL st = None) by reflexivity.
    pose proof (load_model_first st HM) as Hload.
    change (model_name st) with
      (default (str "tiny") (environ !! str "WHISPER_MODEL")) in Hload.
    change (world st) with w in Hload.
    cbn zeta.
    destruct (ext_load_model (default (str "tiny") (environ !! str "WHISPER_MODEL")) w)
      as [[e|h] w1].
    + rewrite (transcribe_audio_load_raises st p e _ Hload),
        (failure_serialisable (exc_str e)).
      reflexivity.
    + destruct (ext_transcribe h p transcribe_kwargs (world (loaded h w1 st)))
        as [[e|d] w2] eqn:Hcall.
      * rewrite (transcribe_audio_call_raises st p h _ e w2 Hload Hcall),
          (failure_serialisable (exc_str e)).
        reflexivity.
      * destruct (transcribe_audio_call_returns st p h _ d w2 Hload Hcall)
          as (r & flag & Hta & Hflag).
        rewrite Hta, Hflag.
        destruct (JsonCheck.refusal sys_int_max_str_digits
                    (Pos.to_nat json_max_depth) (PDict r)); reflexivity.
Qed.

End RunTheorems.

(** ** The command line beyond its first argument *)

Section ArgvTheorems.
Context {W Model : Type} `{!Outside W Model}.
Implicit Types (st : state W Model) (m h : Model) (e : exception) (p : pystr).

(** [load_model] does not look at the command line. *)
Lemma load_model_argv (a : list pystr) st :
  load_model (with_argv a st) =
    (fst (load_model st), with_argv a (snd (load_model st))).
Proof.
  destruct (MODEL st) as [h|] eqn:HM.
  - rewrite (load_model_cached st h HM).
    apply load_model_cached. exact HM.
  - rewrite (load_model_first st HM).
    rewrite (load_model_first (with_argv a st) HM).
    change (model_name (with_argv a st)) with (model_name st).
    change (world (with_argv a st)) with (world st).
    destruct (ext_load_model (model_name st) (world st)) as [[e|h] w];
      reflexivity.
Qed.

Lemma capability_raises_argv (a : list pystr) st p e st1 :
  capability_raises p st e st1 →
  capability_raises p (with_argv a st) e (with_argv a st1).
Proof.
  intros [(HM & w & Hload & ->)|(m & st0 & w & Hload & Hcall & ->)].
  - left. split; [exact HM|]. exists w. split; [exact Hload | reflexivity].
  - right. exists m, (with_argv a st0), w.
    rewrite load_model_argv, Hload. repeat split. exact Hcall.
Qed.

Lemma capability_returns_argv (a : list pystr) st p d st1 :
  capability_returns p st d st1 →
  capability_returns p (with_argv a st) d (with_argv a st1).
Proof.
  intros (m & st0 & w & Hload & Hcall & ->).
  exists m, (with_argv a st0), w.
  rewrite load_model_argv, Hload. repeat split. exact Hcall.
Qed.

(** Neither does [transcribe_audio]. *)
Lemma transcribe_audio_argv (a : list pystr) st p :
  transcribe_audio p (with_argv a st) =
    (fst (transcribe_audio p st), with_argv a (snd (transcribe_audio p st))).
Proof.
  destruct (capability_outcome st p) as [(e & st1 & Hr)|(d & st1 & Hr)].
  - rewrite (transcribe_audio_of_fault st p e st1 Hr).
    apply transcribe_audio_of_fault. apply capability_raises_argv. exact Hr.
  - rewrite (transcribe_audio_of_result st p d st1 Hr).
    apply (transcribe_audio_of_result (with_argv a st) p d (with_argv a st1)).
    apply capability_returns_argv. exact Hr.
Qed.

(** X6. Only the first argument counts.  Two command lines with the same
    first argument, whatever the program name and whatever follows, give
    the same exit status, the same output on both streams, the same calls
    and the same [MODEL]: the runs differ by the command line alone. *)
Theorem extra_arguments_ignored st prog p rest prog' rest' :
  sys_argv st = prog :: p :: rest →
  run (with_argv (prog' :: p :: rest') st) =
    (fst (run st), with_argv (prog' :: p :: rest') (snd (run st))).
Proof.
  intros Hargv.
  rewrite (run_with_path st prog p rest Hargv).
  rewrite (run_with_path (with_argv (prog' :: p :: rest') st) prog' p rest' eq_refl).
  change (world (with_argv (prog' :: p :: rest') st)) with (world st).
  destruct (ext_exists p (world st)); [|reflexivity].
  rewrite transcribe_audio_argv.
  destruct (transcribe_audio p st) as [[r|e|c] st1]; cbn [fst snd];
    [|reflexivity..].
  destruct (JsonCheck.refusal sys_int_max_str_digits
              (Pos.to_nat json_max_depth) (PDict r)); [reflexivity|].
  destruct (dict_lookup (str "success") r); reflexivity.
Qed.

End ArgvTheorems.

(** ** The printed line determines the message *)

Section ReadFacts.
Import Json JsonRead.

Ltac Zify.zify_post_hook ::= Z.to_euclidean_division_equations.

Lemma hex_value_digit (d : N) : d < 16 → hex_value (hex_digit d) = d.
Proof.
  intros Hd. unfold hex_value, hex_digit.
  destruct (N.ltb_spec d 10).
  - destruct (N.ltb_spec (48 + d) 58); lia.
  - destruct (N.ltb_spec (87 + d) 58); lia.
Qed.

Lemma unhex4_hex4 (n : N) :
  n < 65536 →
  unhex4 (hex_digit (N.shiftr n 12 mod 16)) (hex_digit (N.shiftr n 8 mod 16))
    (hex_digit (N.shiftr n 4 mod 16)) (hex_digit (n mod 16)) = n.
Proof.
  intros Hn. unfold unhex4.
  rewrite !hex_value_digit by (apply N.mod_lt; discriminate).
  rewrite !N.shiftr_div_pow2.
  change (2 ^ 12) with 4096. change (2 ^ 8) with 256. change (2 ^ 4) with 16.
  lia.
Qed.

(** A multiple of 1024 and a number below 1024 have no bit in common. *)
Lemma lor_low (k y : N) : y < 1024 → N.lor (k * 1024) y = k * 1024 + y.
Proof.
  intros Hy.
  assert (Hland : N.land (k * 1024) y = 0).
  { apply N.bits_inj. intros i. rewrite N.land_spec, N.bits_0.
    change 1024 with (2 ^ 10). rewrite <- N.shiftl_mul_pow2.
    destruct (N.lt_ge_cases i 10) as [Hi|Hi].
    - rewrite N.shiftl_spec_low by exact Hi. reflexivity.
    - destruct (N.eq_dec y 0) as [->|Hy0].
      + rewrite N.bits_0. apply andb_false_r.
      + rewrite (N.bits_above_log2 y i); [apply andb_false_r|].
        apply N.lt_le_trans with 10; [|exact Hi].
        apply N.log2_lt_pow2; [lia|]. exact Hy. }
  rewrite <- N.lxor_lor by exact Hland.
  symmetry. apply N.add_nocarry_lxor. exact Hland.
Qed.

(** Reading a [\uXXXX] escape of a number that is no high surrogate. *)
Lemma read_u_escape (n : N) (rest : pystr) :
  n < 65536 → (n < 0xD800 ∨ 0xDBFF < n) →
  read_body (u_escape n ++ rest) = push n (read_body rest).
Proof.
  intros Hn Hsur. unfold u_escape, hex4.
  cbn [app read_body N.eqb Pos.eqb].
  rewrite (unhex4_hex4 n Hn).
  destruct (N.leb_spec 0xD800 n); [|reflexivity].
  destruct (N.leb_spec n 0xDBFF); [lia | reflexivity].
Qed.

(** Reading the surrogate pair of a character above the basic plane. *)
Lemma read_surrogate_pair (c : N) (rest : pystr) :
  0x10000 ≤ c → c < 0x110000 →
  read_body
    (u_escape (N.lor 0xd800 (N.land (N.shiftr (c - 0x10000) 10) 0x3ff)) ++
     u_escape (N.lor 0xdc00 (N.land (c - 0x10000) 0x3ff)) ++ rest) =
  push c (read_body rest).
Proof.
  intros Hlo Hhi.
  set (n := c - 0x10000).
  assert (Hn : n < 1048576) by (subst n; lia).
  change 0x3ff with (N.ones 10). rewrite !N.land_ones.
  rewrite N.shiftr_div_pow2. change (2 ^ 10) with 1024.
  change 0xd800 with (54 * 1024). change 0xdc00 with (55 * 1024).
  rewrite !lor_low by (apply N.mod_lt; discriminate).
  set (hi := 54 * 1024 + (n / 1024) mod 1024).
  set (lo := 55 * 1024 + n mod 1024).
  assert (Hhi16 : hi < 65536) by (subst hi; lia).
  assert (Hlo16 : lo < 65536) by (subst lo; lia).
  unfold u_escape, hex4.
  cbn [app read_body N.eqb Pos.eqb].
  rewrite (unhex4_hex4 hi Hhi16), (unhex4_hex4 lo Hlo16).
  destruct (N.leb_spec 0xD800 hi); [|subst hi; lia].
  destruct (N.leb_spec hi 0xDBFF); [|subst hi; lia].
  cbn [andb]. f_equal. subst hi lo n. lia.
Qed.

(** Reading what [escape_char] wrote gives the character back. *)
Lemma read_escape_char (c : N) (rest : pystr) :
  c < 0x110000 → (c < 0xD800 ∨ 0xDBFF < c) →
  read_body (escape_char c ++ rest) = push c (read_body rest).
Proof.
  intros Hc Hsur. unfold escape_char.
  destruct (N.eqb_spec c 34) as [->|H34]; [reflexivity|].
  destruct (N.eqb_spec c 92) as [->|H92]; [reflexivity|].
  destruct ((32 <=? c) && (c <=? 126)) eqn:Hrange.
  { cbn [app read_body].
    destruct (N.eqb_spec c 34); [contradiction|].
    destruct (N.eqb_spec c 92); [contradiction|]. reflexivity. }
  destruct (N.eqb_spec c 8) as [->|H8]; [reflexivity|].
  destruct (N.eqb_spec c 12) as [->|H12]; [reflexivity|].
  destruct (N.eqb_spec c 10) as [->|H10]; [reflexivity|].
  destruct (N.eqb_spec c 13) as [->|H13]; [reflexivity|].
  destruct (N.eqb_spec c 9) as [->|H9]; [reflexivity|].
  destruct (N.ltb_spec c 0x10000) as [Hbmp|Hastral].
  - apply read_u_escape; assumption.
  - cbn zeta. rewrite <- app_assoc. apply read_surrogate_pair; assumption.
Qed.

(** Reading the body of an encoded string, up to its closing quote. *)
Lemma read_body_encoded (s rest : pystr) :
  wellformed s →
  read_body (concat (List.map escape_char s) ++ 34 :: rest) = Some (s, rest).
Proof.
  induction 1 as [|c s [Hc Hsur] Hs IH]; [reflexivity|].
  cbn [List.map concat]. rewrite <- app_assoc.
  rewrite (read_escape_char c _ Hc Hsur), IH. reflexivity.
Qed.

(** The round trip: an encoded string, followed by anything, reads back
    as the string and what follows. *)
Lemma read_string_encoded (s rest : pystr) :
  wellformed s →
  read_string (encode_basestring_ascii s ++ rest) = Some (s, rest).
Proof.
  intros Hs. unfold encode_basestring_ascii.
  cbn [app read_string]. rewrite <- app_assoc.
  apply (read_body_encoded s rest Hs).
Qed.

(** Two encoded strings that start the same text are the same string. *)
Lemma encode_injective (a b r1 r2 : pystr) :
  wellformed a → wellformed b →
  encode_basestring_ascii a ++ r1 = encode_basestring_ascii b ++ r2 →
  a = b ∧ r1 = r2.
Proof.
  intros Ha Hb Heq.
  pose proof (read_string_encoded a r1 Ha) as Hra.
  rewrite Heq, (read_string_encoded b r2 Hb) in Hra.
  injection Hra as -> ->. split; reflexivity.
Qed.

End ReadFacts.

Section OutputTheorems.
Import Json JsonRead.

(** The text of a failure line and of a success line. *)
Lemma dumps_failure (msg : pystr) :
  dumps (PDict (failure_variant msg)) =
    (str "{" ++ quoted (str "success") ++ str ": false, " ++
     quoted (str "error") ++ str ": ") ++
    encode_basestring_ascii msg ++ str "}".
Proof. reflexivity. Qed.

Lemma dumps_success (t : pystr) (language : pyval) (n : Z) :
  dumps (PDict (success_variant t language n)) =
    (str "{" ++ quoted (str "success") ++ str ": true, " ++
     quoted (str "text") ++ str ": ") ++
    encode_basestring_ascii t ++
    (str ", " ++ quoted (str "language") ++ str ": " ++ dumps language ++
     str ", " ++ quoted (str "segments") ++ str ": " ++ repr_int n ++ str "}").
Proof.
  cbn [dumps success_variant List.map join].
  rewrite <- !app_assoc. reflexivity.
Qed.

(** X8. The failure line on standard output determines the error message:
    two well-formed messages that print the same line are the same
    message, so a reader of the line recovers the message exactly, escapes
    included. *)
Theorem output_determines_message (a b : pystr) :
  wellformed a → wellformed b →
  dumps (PDict (failure_variant a)) = dumps (PDict (failure_variant b)) →
  a = b.
Proof.
  intros Ha Hb Heq. rewrite !dumps_failure in Heq.
  apply app_inv_head in Heq.
  destruct (encode_injective a b _ _ Ha Hb Heq) as [Hab _]. exact Hab.
Qed.

(** X11. The success line determines the transcript: two results whose
    well-formed texts differ never print the same line, whatever their
    language and their count. *)
Theorem output_determines_text (t1 t2 : pystr) (l1 l2 : pyval) (n1 n2 : Z) :
  wellformed t1 → wellformed t2 →
  dumps (PDict (success_variant t1 l1 n1)) =
    dumps (PDict (success_variant t2 l2 n2)) →
  t1 = t2.
Proof.
  intros H1 H2 Heq. rewrite !dumps_success in Heq.
  apply app_inv_head in Heq.
  destruct (encode_injective t1 t2 _ _ H1 H2 Heq) as [Ht _]. exact Ht.
Qed.

End OutputTheorems.

(** ** Concrete runs for the edge cases *)

Section MoreRuns.
Import Demo Cases Json.

Lemma exit_zero_transcribed_witness :
  ∃ prog p rest d t language n st0,
    sys_argv good_run = prog :: p :: rest ∧
    ext_exists p (world good_run) = true ∧
    capability_returns p good_run d st0 ∧
    d !! str "text" = Some (PStr t) ∧
    sys_stdout (snd (run good_run)) =
      sys_stdout good_run ++
      dumps (PDict (success_variant (strip t) language (Z.of_nat n))) ++ [10].
Proof.
  apply (exit_zero_transcribed good_run (snd (run good_run))). reflexivity.
Defined.

Lemma text_not_a_string_witness :
  transcribe_audio wav text_is_none =
    (Ok (failure_variant
           (str "'" ++ type_name PNone ++ str "' object has no attribute 'strip'")),
     transcribed 7 wav (mkWorld [] [] [wav])
       (loaded 7 (mkWorld [] [inr (<[str "text" := PNone]> hello)] [wav])
          text_is_none)).
Proof.
  apply (text_not_a_string text_is_none wav (<[str "text" := PNone]> hello)).
  - exists 7,
      (loaded 7 (mkWorld [] [inr (<[str "text" := PNone]> hello)] [wav])
         text_is_none),
      (mkWorld [] [] [wav]).
    repeat split; reflexivity.
  - reflexivity.
  - intros t. discriminate.
Defined.

Lemma segments_without_length_witness :
  transcribe_audio wav segments_is_none =
    (Ok (failure_variant
           (str "object of type '" ++ type_name PNone ++ str "' has no len()")),
     transcribed 7 wav (mkWorld [] [] [wav])
       (loaded 7 (mkWorld [] [inr (<[str "segments" := PNone]> hello)] [wav])
          segments_is_none)).
Proof.
  apply (segments_without_length segments_is_none wav
           (<[str "segments" := PNone]> hello) _ (str " Hello world. ")).
  - exists 7,
      (loaded 7 (mkWorld [] [inr (<[str "segments" := PNone]> hello)] [wav])
         segments_is_none),
      (mkWorld [] [] [wav]).
    repeat split; reflexivity.
  - reflexivity.
  - reflexivity.
  - left. reflexivity.
Defined.

Lemma extra_arguments_ignored_witness :
  run (with_argv [str "python3"; wav; str "--fast"; str "other.wav"] good_run) =
    (fst (run good_run),
     with_argv [str "python3"; wav; str "--fast"; str "other.wav"]
       (snd (run good_run))).
Proof.
  apply (extra_arguments_ignored good_run prog wav [] (str "python3")
           [str "--fast"; str "other.wav"]).
  reflexivity.
Defined.

Lemma blank_transcript_witness :
  (blank [32; 10] →
   transcribe_audio wav silent_recording =
     (Ok (success_variant [] (default (PStr (str "en")) (silence !! str "language"))
            (Z.of_nat (length (default [] (Some ([] : list pyval)))))),
      transcribed 7 wav (mkWorld [] [] [wav])
        (loaded 7 (mkWorld [] [inr silence] [wav]) silent_recording))) ∧
  (∀ language n,
     transcribe_audio wav silent_recording =
       (Ok (success_variant [] language n),
        transcribed 7 wav (mkWorld [] [] [wav])
          (loaded 7 (mkWorld [] [inr silence] [wav]) silent_recording)) →
     blank [32; 10]).
Proof.
  apply (blank_transcript silent_recording wav silence).
  - exists 7, (loaded 7 (mkWorld [] [inr silence] [wav]) silent_recording),
      (mkWorld [] [] [wav]).
    repeat split; reflexivity.
  - reflexivity.
  - reflexivity.
Defined.

(** The silent recording, run: status 0 and an empty text. *)
Example silent_recording_output :
  fst (run silent_recording) = Exited 0 ∧
  sys_stdout (snd (run silent_recording)) =
    str "{" ++ quoted (str "success") ++ str ": true, " ++
    quoted (str "text") ++ str ": " ++ quoted [] ++ str ", " ++
    quoted (str "language") ++ str ": " ++ quoted (str "en") ++ str ", " ++
    quoted (str "segments") ++ str ": 0}" ++ [10].
Proof. split; reflexivity. Qed.

Lemma transcribe_audio_cached_witness :
  ∃ r st1,
    transcribe_audio wav warm = (Ok r, st1) ∧
    calls st1 = calls warm ++ [CallTranscribe 7 wav transcribe_kwargs] ∧
    world st1 = snd (ext_transcribe 7 wav transcribe_kwargs (world warm)) ∧
    sys_stderr st1 = sys_stderr warm ∧ sys_stdout st1 = sys_stdout warm ∧
    MODEL st1 = Some 7.
Proof. apply (transcribe_audio_cached warm wav 7). reflexivity. Defined.

Lemma output_determines_message_witness :
  str "Audio file not found: call.wav" = str "Audio file not found: call.wav".
Proof.
  apply (output_determines_message (str "Audio file not found: call.wav")
           (str "Audio file not found: call.wav")).
  - unfold wellformed. apply (bool_decide_unpack _). vm_compute. exact I.
  - unfold wellformed. apply (bool_decide_unpack _). vm_compute. exact I.
  - reflexivity.
Defined.

Lemma output_determines_text_witness :
  str "Hello world." = str "Hello world.".
Proof.
  apply (output_determines_text (str "Hello world.") (str "Hello world.")
           (PStr (str "en")) (PStr (str "en")) 1 1).
  - unfold wellformed. apply (bool_decide_unpack _). vm_compute. exact I.
  - unfold wellformed. apply (bool_decide_unpack _). vm_compute. exact I.
  - reflexivity.
Defined.

(** Why the messages must be well formed: a high surrogate followed by a
    low one is written like the character of the pair. *)
Example lone_surrogates_collide :
  dumps (PStr [0xD83D; 0xDE00]) = dumps (PStr [0x1F600]).
Proof. reflexivity. Qed.

End MoreRuns.

(** ** Runs on which [json.dumps] raises *)

Section CrashRuns.
Import Demo Cases Json.


(** C4, as stated, fails: the path exists and [transcribe_audio] returns a
    result whose [success] is true, its language the integer of 4301
    digits that the model reported; [json.dumps] raises on it, outside any
    [try], so nothing is printed and the process does not exit with
    status 0. *)
Lemma main_crashes_on_long_language :
  sys_argv long_language = [prog; wav] ∧
  ext_exists wav (world long_language) = true ∧
  (∃ result,
     fst (transcribe_audio wav long_language) = Ok result ∧
     dict_lookup (str "success") result = Some (PBool true) ∧
     dict_lookup (str "language") result = Some (PInt (10 ^ 4300))) ∧
  fst (run long_language) = Crashed (JsonCheck.ValueError_digits 4300) ∧
  sys_stdout (snd (run long_language)) = [].
Proof.
  split; [reflexivity|]. split; [reflexivity|]. split.
  - eexists. split; [vm_compute; reflexivity|]. split; vm_compute; reflexivity.
  - split; vm_compute; reflexivity.
Qed.


End CrashRuns.
